(** * make-dataset: the Yelp harvesting pipeline

    A shallow embedding of [src/data/make-dataset.py]: the paginated
    harvest [get_yelp_data], the normalisation of one page of the GraphQL
    answer into business, review and photo rows, the photo cache
    [download_photos], and [main], which runs the one, saves the tables and
    runs the other.

    Python values are modelled as the interpreter has them: a [str] is a
    sequence of Unicode code points, a parsed JSON document is a tree of
    dynamically typed values, and an operation applied to a value of the
    wrong type raises the exception Python raises.  A raised exception ends
    the computation with an [exn].

    Boundaries of the model:
    - the remote side is a parameter; every request is answered by a
      response (no connection error, no time-out);
    - the file system is a finite map from path strings to entries;
      creating a directory and writing a file succeed, and of the
      directories [os.makedirs] creates only the path itself is recorded,
      not its missing parents;
    - a table is the sequence of the records appended to the frame, as
      they are built; the frame may store a number or a missing value
      under another type ([None] as [NaN], an [int] as a [float]), a
      string it stores as it is;
    - the order in which a set is enumerated is a parameter;
    - a cell that the source fills with [json.dumps(l)] holds [l];
    - in [main], the type conversions of pandas, the helper module
      [src.data.helpers] and the CSV writer are parameters, and the
      [--target_path] option is given;
    - [hashlib.md5] and the UTF-8 encoder are implemented here. *)

From Stdlib Require Import NArith ZArith String Ascii Lia.
From stdpp Require Import base list gmap.

Local Open Scope N_scope.

(** ** Python strings and bytes *)

(** A Python [str]: its code points, so that [len] and iteration count
    characters (the price "€€" has length 2). *)
Definition str := list N.

(** A [bytes] value: one number below 256 per byte. *)
Definition bytes := list N.

(** An ASCII literal as a [str]. *)
Definition lit (s : string) : str :=
  List.map N_of_ascii (list_ascii_of_string s).

(** [s.encode("utf-8")]: one to four bytes per code point; a surrogate
    (which [json] can produce from a lone [\udXXX] escape) cannot be
    encoded.  No Python string holds a code point above U+10FFFF. *)
Definition encode_char (c : N) : option bytes :=
  if c <? 128 then Some [c]
  else if c <? 2048 then
    Some [192 + N.shiftr c 6; 128 + N.land c 63]
  else if (55296 <=? c) && (c <=? 57343) then None
  else if c <? 65536 then
    Some [224 + N.shiftr c 12; 128 + N.land (N.shiftr c 6) 63;
          128 + N.land c 63]
  else if c <=? 1114111 then
    Some [240 + N.shiftr c 18; 128 + N.land (N.shiftr c 12) 63;
          128 + N.land (N.shiftr c 6) 63; 128 + N.land c 63]
  else None.

Fixpoint encode_utf8 (s : str) : option bytes :=
  match s with
  | [] => Some []
  | c :: s' =>
      match encode_char c, encode_utf8 s' with
      | Some b, Some bs => Some (b ++ bs)
      | _, _ => None
      end
  end.

(** [str(n)] for a non-negative integer: its decimal digits. *)
Fixpoint digits_fuel (fuel : nat) (n : N) (acc : str) : str :=
  match fuel with
  | O => acc
  | S fuel' =>
      let acc' := (48 + n mod 10) :: acc in
      if n <? 10 then acc' else digits_fuel fuel' (n / 10) acc'
  end.

Definition str_of_N (n : N) : str :=
  digits_fuel (S (N.to_nat (N.log2 n))) n [].

(** ** MD5 ([hashlib.md5], RFC 1321) *)

Module MD5.

Definition mask32 : N := 4294967295.

Definition add32 (x y : N) : N := N.land (x + y) mask32.

Definition not32 (x : N) : N := N.lxor x mask32.

Definition rotl32 (x : N) (c : N) : N :=
  N.land (N.lor (N.shiftl x c) (N.shiftr x (32 - c))) mask32.

Definition shifts : list N :=
  [7; 12; 17; 22; 7; 12; 17; 22; 7; 12; 17; 22; 7; 12; 17; 22;
   5; 9; 14; 20; 5; 9; 14; 20; 5; 9; 14; 20; 5; 9; 14; 20;
   4; 11; 16; 23; 4; 11; 16; 23; 4; 11; 16; 23; 4; 11; 16; 23;
   6; 10; 15; 21; 6; 10; 15; 21; 6; 10; 15; 21; 6; 10; 15; 21].

(** [floor (2^32 * abs (sin (i + 1)))] for [i] from 0 to 63. *)
Definition sines : list N :=
  [3614090360; 3905402710; 606105819; 3250441966;
   4118548399; 1200080426; 2821735955; 4249261313;
   1770035416; 2336552879; 4294925233; 2304563134;
   1804603682; 4254626195; 2792965006; 1236535329;
   4129170786; 3225465664; 643717713; 3921069994;
   3593408605; 38016083; 3634488961; 3889429448;
   568446438; 3275163606; 4107603335; 1163531501;
   2850285829; 4243563512; 1735328473; 2368359562;
   4294588738; 2272392833; 1839030562; 4259657740;
   2763975236; 1272893353; 4139469664; 3200236656;
   681279174; 3936430074; 3572445317; 76029189;
   3654602809; 3873151461; 530742520; 3299628645;
   4096336452; 1126891415; 2878612391; 4237533241;
   1700485571; 2399980690; 4293915773; 2240044497;
   1873313359; 4264355552; 2734768916; 1309151649;
   4149444226; 3174756917; 718787259; 3951481745].

Definition state : Type := N * N * N * N.

Definition init : state := (1732584193, 4023233417, 2562383102, 271733878).

(** Little-endian 32-bit words of a byte sequence. *)
Fixpoint words (b : bytes) : list N :=
  match b with
  | b0 :: b1 :: b2 :: b3 :: rest =>
      (b0 + N.shiftl b1 8 + N.shiftl b2 16 + N.shiftl b3 24) :: words rest
  | _ => []
  end.

Definition word_bytes (w : N) : bytes :=
  [N.land w 255; N.land (N.shiftr w 8) 255;
   N.land (N.shiftr w 16) 255; N.land (N.shiftr w 24) 255].

(** The message followed by 0x80, zeros up to 56 modulo 64, and the bit
    length on 64 bits, little-endian. *)
Definition pad (msg : bytes) : bytes :=
  let n := N.of_nat (length msg) in
  let zeros := (119 - n mod 64) mod 64 in
  let bits := N.land (8 * n) 18446744073709551615 in
  msg ++ [128] ++ replicate (N.to_nat zeros) 0
      ++ word_bytes (N.land bits mask32) ++ word_bytes (N.shiftr bits 32).

Definition round (m : list N) (i : N) (st : state) : state :=
  let '(a, b, c, d) := st in
  let '(f, g) :=
    if i <? 16 then (N.lor (N.land b c) (N.land (not32 b) d), i)
    else if i <? 32 then
      (N.lor (N.land d b) (N.land (not32 d) c), (5 * i + 1) mod 16)
    else if i <? 48 then (N.lxor b (N.lxor c d), (3 * i + 5) mod 16)
    else (N.lxor c (N.lor b (not32 d)), (7 * i) mod 16) in
  let f' := add32 (add32 (add32 f a) (nth (N.to_nat i) sines 0))
                  (nth (N.to_nat g) m 0) in
  (d, add32 b (rotl32 f' (nth (N.to_nat i) shifts 0)), b, c).

Definition block (st : state) (m : list N) : state :=
  let '(a0, b0, c0, d0) := st in
  let '(a, b, c, d) :=
    fold_left (fun s i => round m (N.of_nat i) s) (seq 0 64) st in
  (add32 a0 a, add32 b0 b, add32 c0 c, add32 d0 d).

Fixpoint blocks (fuel : nat) (st : state) (ws : list N) : state :=
  match fuel, ws with
  | S fuel', _ :: _ => blocks fuel' (block st (take 16 ws)) (drop 16 ws)
  | _, _ => st
  end.

Definition digest (msg : bytes) : bytes :=
  let ws := words (pad msg) in
  let '(a, b, c, d) := blocks (length ws) init ws in
  word_bytes a ++ word_bytes b ++ word_bytes c ++ word_bytes d.

Definition hex_digit (n : N) : N := if n <? 10 then 48 + n else 87 + n.

Definition hex (b : bytes) : str :=
  flat_map (fun x => [hex_digit (N.shiftr x 4); hex_digit (N.land x 15)]) b.

(** [md5(msg).hexdigest()] *)
Definition hexdigest (msg : bytes) : str := hex (digest msg).

End MD5.


(** ** Parsed JSON: the Python objects [response.json()] builds *)

(** A Python [float]: a finite double is [(-1)^neg * m * 2^e]; the
    decoder also accepts [Infinity], [-Infinity] and [NaN]. *)
Inductive pyfloat : Type :=
| FFinite (neg : bool) (m : N) (e : Z)
| FInf (neg : bool)
| FNaN.

(** A [dict] is kept as its items in insertion order; the keys of a dict
    are pairwise distinct, and a lookup returns the first binding. *)
#[local] Set Warnings "-register-all".
Inductive json : Type :=
| JNone
| JBool (b : bool)
| JInt (z : Z)
| JFloat (f : pyfloat)
| JStr (s : str)
| JList (l : list json)
| JDict (items : list (str * json)).

(** Exceptions of the interpreter and of the libraries, and the two
    [Exception]s the harvest raises itself: the first carries the status
    code and the response text its message is built from, the second the
    value of [data['errors']]. *)
Inductive exn : Type :=
| TypeError
| AttributeError
| KeyError
| UnicodeEncodeError
| JSONDecodeError
| TransportError (status_code : Z) (text : str)
| ApiError (errors : json).

Inductive result (A : Type) : Type :=
| Ok (a : A)
| Raise (e : exn).
Arguments Ok {A} _.
Arguments Raise {A} _.

Definition bind {A B} (r : result A) (k : A -> result B) : result B :=
  match r with
  | Ok a => k a
  | Raise e => Raise e
  end.

Declare Scope py_scope.
Delimit Scope py_scope with py.
Notation "x <- e ;; k" := (bind e (fun x => k))
  (at level 100, e at next level, k at level 200, right associativity)
  : py_scope.
Local Open Scope py_scope.

(** A [for] loop whose body updates the loop-carried variables [s] and may
    raise. *)
Fixpoint foldM {A S} (body : A -> S -> result S) (l : list A) (s : S)
  : result S :=
  match l with
  | [] => Ok s
  | x :: l' => s' <- body x s ;; foldM body l' s'
  end.

(** A comprehension [[f x for x in l]]. *)
Fixpoint mapM {A B} (f : A -> result B) (l : list A) : result (list B) :=
  match l with
  | [] => Ok []
  | x :: l' => y <- f x ;; ys <- mapM f l' ;; Ok (y :: ys)
  end.

Fixpoint assoc (k : str) (items : list (str * json)) : option json :=
  match items with
  | [] => None
  | (k', v) :: items' =>
      if bool_decide (k = k') then Some v else assoc k items'
  end.

(** [d.get(k, default)]: only a dict has the method. *)
Definition dict_get (d : json) (k : str) (default : json) : result json :=
  match d with
  | JDict items =>
      Ok (match assoc k items with Some v => v | None => default end)
  | _ => Raise AttributeError
  end.

(** [d[k]] for a [str] key [k]. *)
Definition subscript (d : json) (k : str) : result json :=
  match d with
  | JDict items =>
      match assoc k items with Some v => Ok v | None => Raise KeyError end
  | _ => Raise TypeError
  end.

(** [for x in v]: the elements of a list, the characters of a string, the
    keys of a dict; nothing else in a JSON document is iterable. *)
Definition iter (v : json) : result (list json) :=
  match v with
  | JList l => Ok l
  | JStr s => Ok (List.map (fun c => JStr [c]) s)
  | JDict items => Ok (List.map (fun kv => JStr (fst kv)) items)
  | _ => Raise TypeError
  end.

(** [len(v)] *)
Definition len (v : json) : result Z :=
  match v with
  | JStr s => Ok (Z.of_nat (length s))
  | JList l => Ok (Z.of_nat (length l))
  | JDict items => Ok (Z.of_nat (length items))
  | _ => Raise TypeError
  end.

(** Truth value of an object, as [or] tests it. *)
Definition truthy (v : json) : bool :=
  match v with
  | JNone => false
  | JBool b => b
  | JInt z => negb (z =? 0)%Z
  | JFloat (FFinite _ m _) => negb (m =? 0)
  | JFloat _ => true
  | JStr s => negb (bool_decide (s = []))
  | JList l => match l with [] => false | _ => true end
  | JDict items => match items with [] => false | _ => true end
  end.

(** [a or b] *)
Definition py_or (a b : json) : json := if truthy a then a else b.

(** [v is not None] *)
Definition is_not_None (v : json) : bool :=
  match v with JNone => false | _ => true end.

Fixpoint is_prefix (p s : str) : bool :=
  match p, s with
  | [], _ => true
  | c :: p', d :: s' => (c =? d) && is_prefix p' s'
  | _ :: _, [] => false
  end.

Fixpoint is_substring (p s : str) : bool :=
  is_prefix p s || match s with [] => false | _ :: s' => is_substring p s' end.

(** [k in v] for a [str] [k]: a key of a dict, an element of a list, a
    substring of a string. *)
Definition py_in (k : str) (v : json) : result bool :=
  match v with
  | JDict items => Ok (match assoc k items with Some _ => true | None => false end)
  | JList l =>
      Ok (existsb (fun x => match x with
                            | JStr s => bool_decide (s = k)
                            | _ => false
                            end) l)
  | JStr s => Ok (is_substring k s)
  | _ => Raise TypeError
  end.

(** [a + b] where [b] is a [str]: defined for a [str] [a] only. *)
Definition py_add_str (a : json) (b : str) : result str :=
  match a with
  | JStr s => Ok (s ++ b)
  | _ => Raise TypeError
  end.

(** [v.encode("utf-8")]: a method of [str]. *)
Definition py_encode (v : json) : result bytes :=
  match v with
  | JStr s =>
      match encode_utf8 s with
      | Some b => Ok b
      | None => Raise UnicodeEncodeError
      end
  | _ => Raise AttributeError
  end.

(** *** Sets *)

(** Lists and dicts are unhashable. *)
Definition hashable (v : json) : bool :=
  match v with
  | JList _ | JDict _ => false
  | _ => true
  end.

(** The value of a number as [mantissa * 2^exponent]; [True] is 1. *)
Definition num_val (v : json) : option (Z * Z) :=
  match v with
  | JBool b => Some (if b then 1%Z else 0%Z, 0%Z)
  | JInt z => Some (z, 0%Z)
  | JFloat (FFinite neg m e) =>
      Some (if neg then (- Z.of_N m)%Z else Z.of_N m, e)
  | _ => None
  end.

Definition num_eqb (x y : Z * Z) : bool :=
  let e := Z.min (snd x) (snd y) in
  (fst x * 2 ^ (snd x - e) =? fst y * 2 ^ (snd y - e))%Z.

(** Equality of two hashable objects as a set decides it: numbers by
    value across [bool], [int] and [float], strings by content; the decoder
    has one [NaN] object, which a set finds by identity. *)
Definition py_eqb (a b : json) : bool :=
  match num_val a, num_val b with
  | Some x, Some y => num_eqb x y
  | None, None =>
      match a, b with
      | JNone, JNone => true
      | JStr s, JStr t => bool_decide (s = t)
      | JFloat (FInf n1), JFloat (FInf n2) => Bool.eqb n1 n2
      | JFloat FNaN, JFloat FNaN => true
      | _, _ => false
      end
  | _, _ => false
  end.

(** A Python [set], kept as its elements in the order they were first
    added; the order in which [list(s)] enumerates them is not this one
    (see [set_iter] below). *)
Definition pyset := list json.

(** [s.add(v)] *)
Definition set_add (v : json) (s : pyset) : result pyset :=
  if hashable v then Ok (if existsb (py_eqb v) s then s else s ++ [v])
  else Raise TypeError.

(** [set(l)] *)
Definition set_of_list (l : list json) : result pyset := foldM set_add l [].

(** ** The three tables *)

(** One row of each [DataFrame]; a cell holds the Python object the
    source stored.  The two category cells hold the list handed to
    [json.dumps]. *)
Record business_row : Type := {
  business_alias : json;
  business_review_count : json;
  business_rating : json;
  business_price : Z;
  business_city : json;
  business_state : json;
  business_postal_code : json;
  business_country : json;
  business_latitude : json;
  business_longitude : json;
  business_categories : list json;
  business_parent_categories : list json;
}.

Record review_row : Type := {
  review_business_alias : json;
  review_text : json;
  review_rating : json;
}.

Record photo_row : Type := {
  photo_business_alias : json;
  photo_url : json;
  file_name : str;
}.

(** [businesses, reviews, photos] *)
Definition tables : Type :=
  list business_row * list review_row * list photo_row.

(** ** The outside world *)

(** What the code reads of a [requests.Response]; [json_body] is what
    [response.json()] returns or raises. *)
Record response : Type := {
  status_code : Z;
  text : str;
  content : bytes;
  json_body : result json;
}.

Inductive request : Type :=
| POST (url : str) (headers : list (str * str)) (data : str)
| GET (url : str).

Inductive log_record : Type :=
| LogInfo (msg : str)
| LogWarning (photo_url : str) (status_code : Z) (text : str).

(** An entry of the file system. *)
Inductive entry : Type :=
| Dir
| File (data : bytes).

(** [os.path.join(a, b)] on POSIX. *)
Definition path_join (a b : str) : str :=
  match b with
  | 47 :: _ => b
  | _ =>
      match last a with
      | None => b
      | Some 47 => a ++ b
      | Some _ => a ++ [47] ++ b
      end
  end.

(** [range(start, stop, step)] for a positive [step]. *)
Fixpoint range_fuel (fuel : nat) (start stop step : N) : list N :=
  match fuel with
  | O => []
  | S fuel' =>
      if start <? stop then start :: range_fuel fuel' (start + step) stop step
      else []
  end.

Definition range (start stop step : N) : list N :=
  range_fuel (N.to_nat (stop - start)) start stop step.

(** The state a run acts on: the remote side, the traffic so far (each
    request with the response it got), the file system and the records
    handed to [logging]. *)
Record world (Net : Type) : Type := {
  net : Net;
  traffic : list (request * response);
  fs : gmap str entry;
  logging : list log_record;
}.
Arguments net {Net} _.
Arguments traffic {Net} _.
Arguments fs {Net} _.
Arguments logging {Net} _.

(** A row of [photos] as [itertuples] yields it to [download_photos]: the
    two columns the function reads, both strings. *)
Record photo_tuple : Type := {
  tuple_photo_url : str;
  tuple_file_name : str;
}.

(** How a call of [main] ends: it returns, it leaves the interpreter through
    [sys.exit(code)], or an exception escapes it. *)
Inductive outcome : Type :=
| Returned
| SystemExit (code : Z)
| Raised (e : exn).

(** A download answered with status 200. *)
Definition answered_200 (x : request * response) : Prop :=
  status_code x.2 = 200%Z.

#[global] Instance answered_200_dec x : Decision (answered_200 x) :=
  Z.eq_dec (status_code x.2) 200%Z.

(** An entry of a file system that is a file. *)
Definition is_file (x : str * entry) : Prop :=
  match x.2 with File _ => True | Dir => False end.

#[global] Instance is_file_dec x : Decision (is_file x).
Proof. unfold is_file. destruct x.2; apply _. Defined.

(** The files of a file system. *)
Definition files (m : gmap str entry) : gmap str entry := filter is_file m.

(** ** Sample data

    A business entry as the API returns it, pages built from it, and a few
    remote sides; the properties below are instantiated on them. *)

Module Sample.

Definition photo_link : str :=
  lit "https://s3-media1.fl.yelpcdn.com/bphoto/x/o.jpg".

Definition category (alias parent : string) : json :=
  JDict [(lit "alias", JStr (lit alias));
         (lit "parent_categories",
          JList [JDict [(lit "alias", JStr (lit parent))]])].

(** Two categories that share the parent "food"; a rating of 4.5. *)
Definition business : json :=
  JDict [(lit "alias", JStr (lit "le-bistro"));
         (lit "review_count", JInt 12);
         (lit "rating", JFloat (FFinite false 9 (-1)));
         (lit "price", JStr (lit "$$"));
         (lit "location",
          JDict [(lit "city", JStr (lit "Paris"));
                 (lit "state", JStr (lit "75"));
                 (lit "postal_code", JStr (lit "75011"));
                 (lit "country", JStr (lit "FR"))]);
         (lit "coordinates",
          JDict [(lit "latitude", JFloat (FFinite false 391 (-3)));
                 (lit "longitude", JFloat (FFinite false 19 (-3)))]);
         (lit "categories", JList [category "a" "food"; category "b" "food"]);
         (lit "photos", JList [JStr photo_link]);
         (lit "reviews",
          JList [JDict [(lit "text", JStr (lit "Great"));
                        (lit "rating", JInt 5)]])].

Definition business_row_expected : business_row :=
  {| business_alias := JStr (lit "le-bistro");
     business_review_count := JInt 12;
     business_rating := JFloat (FFinite false 9 (-1));
     business_price := 2;
     business_city := JStr (lit "Paris");
     business_state := JStr (lit "75");
     business_postal_code := JStr (lit "75011");
     business_country := JStr (lit "FR");
     business_latitude := JFloat (FFinite false 391 (-3));
     business_longitude := JFloat (FFinite false 19 (-3));
     business_categories := [JStr (lit "a"); JStr (lit "b")];
     business_parent_categories := [JStr (lit "food")] |}.

Definition review_row_expected : review_row :=
  {| review_business_alias := JStr (lit "le-bistro");
     review_text := JStr (lit "Great");
     review_rating := JInt 5 |}.

Definition photo_row_expected : photo_row :=
  {| photo_business_alias := JStr (lit "le-bistro");
     photo_url := JStr photo_link;
     file_name := lit "le-bistro_d5988730afe849f18bde6bc1f524b988.jpg" |}.

(** A business entry with neither price nor categories, and with null
    photos and reviews. *)
Definition bare_business : json :=
  JDict [(lit "alias", JStr (lit "chez-nous"));
         (lit "photos", JNone);
         (lit "reviews", JNone)].

Definition bare_row_expected : business_row :=
  {| business_alias := JStr (lit "chez-nous");
     business_review_count := JNone;
     business_rating := JNone;
     business_price := 0;
     business_city := JNone;
     business_state := JNone;
     business_postal_code := JNone;
     business_country := JNone;
     business_latitude := JNone;
     business_longitude := JNone;
     business_categories := [];
     business_parent_categories := [] |}.

(** A business entry whose categories are null. *)
Definition uncategorised_business : json :=
  JDict [(lit "alias", JStr (lit "chez-nous")); (lit "categories", JNone)].

Definition page (businesses : list json) : json :=
  JDict [(lit "data",
          JDict [(lit "search", JDict [(lit "business", JList businesses)])])].

(** A payload without business list. *)
Definition page_without_list : json :=
  JDict [(lit "data", JDict [(lit "search", JDict [(lit "total", JInt 0)])])].

Definition ok (data : json) : response :=
  {| status_code := 200; text := []; content := []; json_body := Ok data |}.

Definition server_error : response :=
  {| status_code := 500;
     text := lit "Internal Server Error";
     content := [];
     json_body := Raise JSONDecodeError |}.

Definition api_errors : json :=
  JList [JDict [(lit "message", JStr (lit "TOO_MANY_REQUESTS_PER_SECOND"))]].

Definition api_error : response := ok (JDict [(lit "errors", api_errors)]).

Definition image (data : bytes) : response :=
  {| status_code := 200; text := []; content := data;
     json_body := Raise JSONDecodeError |}.

Definition unavailable : response :=
  {| status_code := 503;
     text := lit "Service Unavailable";
     content := [];
     json_body := Raise JSONDecodeError |}.

(** Remote sides whose state counts the requests answered so far. *)

(** One business on the first page, later pages empty. *)
Definition short_pages (n : nat) (_ : str) (_ : list (str * str)) (_ : str)
  : response * nat :=
  (match n with O => ok (page [business]) | _ => ok (page []) end, S n).

(** The second request fails. *)
Definition failing_second (n : nat) (_ : str) (_ : list (str * str))
           (_ : str) : response * nat :=
  (match n with 1%nat => server_error | _ => ok (page [business]) end, S n).

(** The third request is answered with an error list. *)
Definition errors_third (n : nat) (_ : str) (_ : list (str * str))
           (_ : str) : response * nat :=
  (match n with 2%nat => api_error | _ => ok (page []) end, S n).

Definition jpeg : bytes := [255; 216; 255; 224].

(** Every download succeeds. *)
Definition steady_get (n : nat) (_ : str) : response * nat :=
  (image jpeg, S n).

(** The first download fails, later ones succeed. *)
Definition flaky_get (n : nat) (_ : str) : response * nat :=
  (match n with O => unavailable | _ => image jpeg end, S n).

(** Downloads of the second photo fail. *)
Definition picky_get (n : nat) (u : str) : response * nat :=
  (if bool_decide (u = lit "https://example.org/2.jpg") then unavailable
   else image jpeg, S n).

Definition start : world nat :=
  {| net := O; traffic := []; fs := ∅; logging := [] |}.

Definition photo : photo_tuple :=
  {| tuple_photo_url := photo_link;
     tuple_file_name := lit "le-bistro_d5988730afe849f18bde6bc1f524b988.jpg" |}.

Definition photo_n (n : string) : photo_tuple :=
  {| tuple_photo_url := lit "https://example.org/" ++ lit n ++ lit ".jpg";
     tuple_file_name := lit "p_" ++ lit n ++ lit ".jpg" |}.

Definition three_photos : list photo_tuple :=
  [photo_n "1"; photo_n "2"; photo_n "3"].

(** An entry without [location], whose [coordinates] have no longitude. *)
Definition adrift_items : list (str * json) :=
  [(lit "alias", JStr (lit "la-barque"));
   (lit "coordinates", JDict [(lit "latitude", JInt 48)])].

Definition adrift_row_expected : business_row :=
  {| business_alias := JStr (lit "la-barque");
     business_review_count := JNone;
     business_rating := JNone;
     business_price := 0;
     business_city := JNone;
     business_state := JNone;
     business_postal_code := JNone;
     business_country := JNone;
     business_latitude := JInt 48;
     business_longitude := JNone;
     business_categories := [];
     business_parent_categories := [] |}.

(** An entry without alias that has a photo. *)
Definition anonymous_items : list (str * json) :=
  [(lit "photos", JList [JStr photo_link])].

Definition anonymous_row_expected : business_row :=
  {| business_alias := JNone;
     business_review_count := JNone;
     business_rating := JNone;
     business_price := 0;
     business_city := JNone;
     business_state := JNone;
     business_postal_code := JNone;
     business_country := JNone;
     business_latitude := JNone;
     business_longitude := JNone;
     business_categories := [];
     business_parent_categories := [] |}.

(** An entry whose first category has no alias. *)
Definition half_named_business : json :=
  JDict [(lit "alias", JStr (lit "chez-nous"));
         (lit "categories", JList [JDict []; category "a" "food"])].

Definition half_named_row_expected : business_row :=
  {| business_alias := JStr (lit "chez-nous");
     business_review_count := JNone;
     business_rating := JNone;
     business_price := 0;
     business_city := JNone;
     business_state := JNone;
     business_postal_code := JNone;
     business_country := JNone;
     business_latitude := JNone;
     business_longitude := JNone;
     business_categories := [JNone; JStr (lit "a")];
     business_parent_categories := [JStr (lit "food")] |}.

(** The same business on every page. *)
Definition stuck_pages (n : nat) (_ : str) (_ : list (str * str)) (_ : str)
  : response * nat :=
  (ok (page [bare_business]), S n).

(** Every request is answered with status 200 and a body that is not
    JSON. *)
Definition garbled (n : nat) (_ : str) (_ : list (str * str)) (_ : str)
  : response * nat :=
  (image jpeg, S n).

(** Every download fails. *)
Definition down_get (n : nat) (_ : str) : response * nat :=
  (unavailable, S n).

(** Frames for [main]: the rows of a table; a photo row with its two
    strings.  The text written for a frame is one line per row. *)
Inductive frame : Type :=
| BusinessFrame (rows : list business_row)
| ReviewFrame (rows : list review_row)
| PhotoFrame (rows : list photo_tuple).

Definition as_tuple (p : photo_row) : result photo_tuple :=
  match photo_url p with
  | JStr u => Ok {| tuple_photo_url := u; tuple_file_name := file_name p |}
  | _ => Raise TypeError
  end.

Definition prepare (t : tables) : result (frame * frame * frame) :=
  match mapM as_tuple t.2 with
  | Ok rows => Ok (BusinessFrame t.1.1, ReviewFrame t.1.2, PhotoFrame rows)
  | Raise e => Raise e
  end.

Definition to_csv (f : frame) : bytes :=
  match f with
  | BusinessFrame rows =>
      lit "business_alias" ++ [10] ++ replicate (length rows) 10
  | ReviewFrame rows =>
      lit "review_text" ++ [10] ++ replicate (length rows) 10
  | PhotoFrame rows =>
      lit "photo_url,file_name" ++ [10]
      ++ concat ((fun r => tuple_photo_url r ++ [44] ++ tuple_file_name r
                           ++ [10]) <$> rows)
  end.

Definition itertuples (f : frame) : list photo_tuple :=
  match f with
  | PhotoFrame rows => rows
  | _ => []
  end.

End Sample.

(** ** The pipeline *)

Section Pipeline.

(** The order in which [list(s)] enumerates a set depends on the hashes
    of its elements (and, for strings, on the interpreter's hash seed):
    it is a parameter, of which only [set_iter_perm] below is known. *)
Variable set_iter : pyset -> list json.

(** The remote side: its state, and how it answers a POST and a GET.
    Every request is answered by a response. *)
Variable Net : Type.
Variable http_post : Net -> str -> list (str * str) -> str -> response * Net.
Variable http_get : Net -> str -> response * Net.

(** [os.getenv("YELP_API_KEY")] *)
Variable YELP_API_KEY : option str.

(** *** Normalisation of one business entry *)

(** [len(business.get("price")) if business.get("price") is not None
    else 0] *)
Definition price_tier (business : json) : result Z :=
  p <- dict_get business (lit "price") JNone ;;
  if is_not_None p then
    p' <- dict_get business (lit "price") JNone ;; len p'
  else Ok 0%Z.

(** [business.get("categories", [])], as a comprehension iterates it. *)
Definition categories_of (business : json) : result (list json) :=
  v <- dict_get business (lit "categories") (JList []) ;;
  iter v.

(** [cat.get("parent_categories", [])], as a comprehension iterates it. *)
Definition parent_categories_of (cat : json) : result (list json) :=
  v <- dict_get cat (lit "parent_categories") (JList []) ;;
  iter v.

(** [{cat.get("alias") for cat in business.get("categories", [])}]: each
    alias is added to the set as soon as it is computed. *)
Definition category_set (business : json) : result pyset :=
  cats <- categories_of business ;;
  foldM (fun cat s => a <- dict_get cat (lit "alias") JNone ;; set_add a s)
        cats [].

(** [[parent_cat.get("alias") for cat in business.get("categories", [])
      for parent_cat in cat.get("parent_categories", [])]] *)
Definition parent_aliases (business : json) : result (list json) :=
  cats <- categories_of business ;;
  ls <- mapM (fun cat =>
                parent_cats <- parent_categories_of cat ;;
                mapM (fun parent_cat =>
                        dict_get parent_cat (lit "alias") JNone)
                     parent_cats)
             cats ;;
  Ok (concat ls).

(** The dict appended to [businesses], its entries evaluated in source
    order. *)
Definition business_record (business : json) : result business_row :=
  alias <- dict_get business (lit "alias") JNone ;;
  review_count <- dict_get business (lit "review_count") JNone ;;
  rating <- dict_get business (lit "rating") JNone ;;
  price <- price_tier business ;;
  l1 <- dict_get business (lit "location") (JDict []) ;;
  city <- dict_get l1 (lit "city") JNone ;;
  l2 <- dict_get business (lit "location") (JDict []) ;;
  state <- dict_get l2 (lit "state") JNone ;;
  l3 <- dict_get business (lit "location") (JDict []) ;;
  postal_code <- dict_get l3 (lit "postal_code") JNone ;;
  l4 <- dict_get business (lit "location") (JDict []) ;;
  country <- dict_get l4 (lit "country") JNone ;;
  c1 <- dict_get business (lit "coordinates") (JDict []) ;;
  latitude <- dict_get c1 (lit "latitude") JNone ;;
  c2 <- dict_get business (lit "coordinates") (JDict []) ;;
  longitude <- dict_get c2 (lit "longitude") JNone ;;
  categories <- category_set business ;;
  parents <- parent_aliases business ;;
  parent_categories <- set_of_list parents ;;
  Ok {| business_alias := alias;
        business_review_count := review_count;
        business_rating := rating;
        business_price := price;
        business_city := city;
        business_state := state;
        business_postal_code := postal_code;
        business_country := country;
        business_latitude := latitude;
        business_longitude := longitude;
        business_categories := set_iter categories;
        business_parent_categories := set_iter parent_categories |}.

(** The dict appended to [photos] for one photo of [business]. *)
Definition photo_record (business photo : json) : result photo_row :=
  alias <- dict_get business (lit "alias") JNone ;;
  a <- dict_get business (lit "alias") JNone ;;
  stem <- py_add_str a (lit "_") ;;
  encoded <- py_encode photo ;;
  Ok {| photo_business_alias := alias;
        photo_url := photo;
        file_name := stem ++ MD5.hexdigest encoded ++ lit ".jpg" |}.

(** The dict appended to [reviews] for one review of [business]. *)
Definition review_record (business review : json) : result review_row :=
  alias <- dict_get business (lit "alias") JNone ;;
  txt <- dict_get review (lit "text") JNone ;;
  rating <- dict_get review (lit "rating") JNone ;;
  Ok {| review_business_alias := alias;
        review_text := txt;
        review_rating := rating |}.

(** [business.get("photos", []) or []] *)
Definition photos_of (business : json) : result (list json) :=
  v <- dict_get business (lit "photos") (JList []) ;;
  iter (py_or v (JList [])).

(** [business.get("reviews", []) or []] *)
Definition reviews_of (business : json) : result (list json) :=
  v <- dict_get business (lit "reviews") (JList []) ;;
  iter (py_or v (JList [])).

(** The body of [for business in ...]: the three tables are the
    loop-carried variables. *)
Definition business_step (business : json) (acc : tables) : result tables :=
  let '(businesses, reviews, photos) := acc in
  row <- business_record business ;;
  let businesses := businesses ++ [row] in
  photo_list <- photos_of business ;;
  photos <- foldM (fun photo photos =>
                     r <- photo_record business photo ;;
                     Ok (photos ++ [r]))
                  photo_list photos ;;
  review_list <- reviews_of business ;;
  reviews <- foldM (fun review reviews =>
                      r <- review_record business review ;;
                      Ok (reviews ++ [r]))
                   review_list reviews ;;
  Ok (businesses, reviews, photos).

(** [data.get("data", {}).get("search", {}).get("business", [])], as the
    [for] statement iterates it. *)
Definition page_businesses (data : json) : result (list json) :=
  d <- dict_get data (lit "data") (JDict []) ;;
  s <- dict_get d (lit "search") (JDict []) ;;
  b <- dict_get s (lit "business") (JList []) ;;
  iter b.

(** *** One page fetch *)

Definition url : str := lit "https://api.yelp.com/v3/graphql".

Definition format_env (v : option str) : str :=
  match v with Some s => s | None => lit "None" end.

Definition headers : list (str * str) :=
  [(lit "Authorization", lit "Bearer " ++ format_env YELP_API_KEY);
   (lit "Content-Type", lit "application/graphql")].

Definition count : N := 200.
Definition limit : N := 50.

Definition line (indent : nat) (s : string) : str :=
  replicate indent 32 ++ lit s ++ [10].

(** The f-string of the query: a backslash at the end of a source line
    joins it to the next one. *)
Definition build_query (category location : str) (offset limit : N) : str :=
  lit "{" ++ [10]
  ++ replicate 8 32 ++ lit "search("
  ++ replicate 12 32 ++ lit "categories: " ++ [34] ++ category ++ [34] ++ lit ", "
  ++ replicate 12 32 ++ lit "location: " ++ [34] ++ location ++ [34] ++ lit ", "
  ++ replicate 12 32 ++ lit "offset: " ++ str_of_N offset ++ lit ", "
  ++ replicate 12 32 ++ lit "limit:  " ++ str_of_N limit
  ++ line 8 ") {"
  ++ line 12 "business {"
  ++ line 16 "alias"
  ++ line 16 "review_count"
  ++ line 16 "rating"
  ++ line 16 "price"
  ++ line 16 "location {"
  ++ line 20 "city"
  ++ line 20 "state"
  ++ line 20 "postal_code"
  ++ line 20 "country"
  ++ line 16 "}"
  ++ line 16 "coordinates {"
  ++ line 20 "latitude"
  ++ line 20 "longitude"
  ++ line 16 "}"
  ++ line 16 "categories {"
  ++ line 20 "alias"
  ++ line 20 "parent_categories {"
  ++ line 24 "alias"
  ++ line 20 "}"
  ++ line 16 "}"
  ++ line 16 "photos"
  ++ line 16 "reviews {"
  ++ line 20 "text"
  ++ line 20 "rating"
  ++ line 16 "}"
  ++ line 12 "}"
  ++ line 8 "}"
  ++ replicate 4 32 ++ lit "}".

(** The checks made on a response before its payload is used: the
    status code, [response.json()], then ["errors" in data]. *)
Definition check_response (r : response) : result json :=
  if negb (status_code r =? 200)%Z then
    Raise (TransportError (status_code r) (text r))
  else
    data <- json_body r ;;
    has_errors <- py_in (lit "errors") data ;;
    if has_errors then
      errors <- subscript data (lit "errors") ;;
      Raise (ApiError errors)
    else Ok data.

(** *** Computations that act on the world and may raise *)

Definition M (A : Type) : Type := world Net -> result A * world Net.

Definition ret {A} (a : A) : M A := fun w => (Ok a, w).

Definition lift {A} (r : result A) : M A := fun w => (r, w).

Definition bindM {A B} (m : M A) (k : A -> M B) : M B :=
  fun w =>
    match m w with
    | (Ok a, w') => k a w'
    | (Raise e, w') => (Raise e, w')
    end.

Notation "x <~ e ;; k" := (bindM e (fun x => k))
  (at level 100, e at next level, k at level 200, right associativity).

(** A [for] loop with effects. *)
Fixpoint for_each {A S} (body : A -> S -> M S) (l : list A) (s : S) : M S :=
  match l with
  | [] => ret s
  | x :: l' => s' <~ body x s ;; for_each body l' s'
  end.

(** [requests.post(url, headers=headers, data=data)] *)
Definition requests_post (u : str) (h : list (str * str)) (d : str)
  : M response :=
  fun w =>
    let '(r, n) := http_post (net w) u h d in
    (Ok r, {| net := n;
              traffic := traffic w ++ [(POST u h d, r)];
              fs := fs w;
              logging := logging w |}).

(** [requests.get(url)] *)
Definition requests_get (u : str) : M response :=
  fun w =>
    let '(r, n) := http_get (net w) u in
    (Ok r, {| net := n;
              traffic := traffic w ++ [(GET u, r)];
              fs := fs w;
              logging := logging w |}).

(** [os.path.exists(p)] *)
Definition os_path_exists (p : str) : M bool :=
  fun w => (Ok (bool_decide (is_Some (fs w !! p))), w).

(** [os.makedirs(p)], called on a path that does not exist. *)
Definition os_makedirs (p : str) : M unit :=
  fun w => (Ok tt, {| net := net w; traffic := traffic w;
                      fs := <[p := Dir]> (fs w);
                      logging := logging w |}).

(** [with open(p, "wb") as f: f.write(data)] *)
Definition write_file (p : str) (data : bytes) : M unit :=
  fun w => (Ok tt, {| net := net w; traffic := traffic w;
                      fs := <[p := File data]> (fs w);
                      logging := logging w |}).

Definition log (r : log_record) : M unit :=
  fun w => (Ok tt, {| net := net w; traffic := traffic w; fs := fs w;
                      logging := logging w ++ [r] |}).

(** *** [get_yelp_data] *)

(** The body of [for offset in range(0, count, limit)]. *)
Definition page_step (category location : str) (offset : N) (acc : tables)
  : M tables :=
  let query := build_query category location offset limit in
  response <~ requests_post url headers query ;;
  lift (data <- check_response response ;;
        business_list <- page_businesses data ;;
        foldM business_step business_list acc).

Definition get_yelp_data (locations : list str) (category : str) : M tables :=
  for_each (fun location acc =>
              for_each (fun offset acc =>
                          page_step category location offset acc)
                       (range 0 count limit) acc)
           locations ([], [], []).

(** *** [download_photos] *)

(** The body of [for photo in photos.itertuples(index=False)]. *)
Definition download_step (target_path : str) (photo : photo_tuple) (_ : unit)
  : M unit :=
  let file_path := path_join target_path (tuple_file_name photo) in
  present <~ os_path_exists file_path ;;
  if negb present then
    request <~ requests_get (tuple_photo_url photo) ;;
    if negb (status_code request =? 200)%Z then
      log (LogWarning (tuple_photo_url photo) (status_code request)
                      (text request))
    else
      write_file file_path (content request)
  else ret tt.

Definition download_photos (photos : list photo_tuple) (target_path : str)
  : M unit :=
  present <~ os_path_exists target_path ;;
  _ <~ (if negb present then
          _ <~ log (LogInfo (lit "Creating " ++ target_path)) ;;
          os_makedirs target_path
        else ret tt) ;;
  for_each (download_step target_path) photos tt.

(** *** [main] *)

(** The global [DATA_PATH], set from the [--target_path] option before
    [main] is called.  (Without the option it is [None], and the first
    [os.path.join] of [main] raises [TypeError].) *)
Variable DATA_PATH : str.

(** A [DataFrame] whose columns have their final types.  The [astype]
    conversions of pandas and [data_helpers.reduce_dataframe_memory_usage],
    a module that is not among the sources, are a parameter: [prepare]
    stands for the lines from "Fix dtypes" to "Reduce memory usage", and
    may raise as a conversion may.  So are the text [to_csv] writes and the
    rows [itertuples] yields. *)
Variable dataframe : Type.
Variable prepare : tables -> result (dataframe * dataframe * dataframe).
Variable to_csv : dataframe -> bytes.
Variable itertuples : dataframe -> list photo_tuple.

Definition businesses_csv_path : str := path_join DATA_PATH (lit "businesses.csv").
Definition reviews_csv_path : str := path_join DATA_PATH (lit "reviews.csv").
Definition photos_csv_path : str := path_join DATA_PATH (lit "photos.csv").

Definition main_locations : list str :=
  [lit "Paris"; lit "New York City"; lit "Tokyo"; lit "Rio de Janeiro";
   lit "Sydney"].

(** [df.to_csv(path, index=False)]: the file is created or replaced. *)
Definition df_to_csv (df : dataframe) (p : str) : M unit :=
  write_file p (to_csv df).

(** [main] from [if not os.path.exists(DATA_PATH)] to its end. *)
Definition main_download : M unit :=
  present <~ os_path_exists DATA_PATH ;;
  _ <~ (if negb present then
          _ <~ log (LogInfo (lit "Creating " ++ DATA_PATH)) ;;
          os_makedirs DATA_PATH
        else ret tt) ;;
  _ <~ log (LogInfo (lit "Downloading data")) ;;
  t <~ get_yelp_data main_locations (lit "restaurants") ;;
  _ <~ log (LogInfo (lit "Data downloaded")) ;;
  frames <~ lift (prepare t) ;;
  _ <~ log (LogInfo (lit "Saving data")) ;;
  _ <~ df_to_csv frames.1.1 businesses_csv_path ;;
  _ <~ df_to_csv frames.1.2 reviews_csv_path ;;
  _ <~ df_to_csv frames.2 photos_csv_path ;;
  _ <~ log (LogInfo (lit "Data saved")) ;;
  _ <~ log (LogInfo (lit "Downloading photos")) ;;
  _ <~ download_photos (itertuples frames.2)
                       (path_join DATA_PATH (lit "photos")) ;;
  log (LogInfo (lit "Photos downloaded")).

(** [os.path.exists(p)] in the state [w]. *)
Definition present_in (w : world Net) (p : str) : bool :=
  bool_decide (is_Some (fs w !! p)).

Definition main (w : world Net) : outcome * world Net :=
  if present_in w businesses_csv_path
     && present_in w reviews_csv_path
     && present_in w photos_csv_path
  then
    (SystemExit 0, (log (LogInfo (lit "Data already downloaded")) w).2)
  else
    match main_download w with
    | (Ok _, w') => (Returned, w')
    | (Raise e, w') => (Raised e, w')
    end.

(** *** Vocabulary of the statements *)

(** What one business entry contributes to the three tables. *)
Definition normalize_business (business : json) : result tables :=
  row <- business_record business ;;
  photo_list <- photos_of business ;;
  photos <- mapM (photo_record business) photo_list ;;
  review_list <- reviews_of business ;;
  reviews <- mapM (review_record business) review_list ;;
  Ok ([row], reviews, photos).

Definition tables_app (a b : tables) : tables :=
  (a.1.1 ++ b.1.1, a.1.2 ++ b.1.2, a.2 ++ b.2).

Definition tables_concat (ts : list tables) : tables :=
  (concat ((fun t : tables => t.1.1) <$> ts),
   concat ((fun t : tables => t.1.2) <$> ts),
   concat ((fun t : tables => t.2) <$> ts)).

(** What one page payload contributes. *)
Definition normalize_page (data : json) : result tables :=
  business_list <- page_businesses data ;;
  ts <- mapM normalize_business business_list ;;
  Ok (tables_concat ts).

(** What one response contributes, or the exception it ends the run
    with. *)
Definition page_of (r : response) : result tables :=
  data <- check_response r ;;
  normalize_page data.

(** The offsets of one location, and the (location, offset) pairs of a
    run in iteration order. *)
Definition offsets : list N := range 0 count limit.

Definition plan (locations : list str) : list (str * N) :=
  flat_map (fun location => (fun offset => (location, offset)) <$> offsets)
           locations.

Definition page_request (category : str) (p : str * N) : request :=
  POST url headers (build_query category p.1 p.2 limit).

(** The outcome of a fetch in the words of the specification, for a
    response whose body is the JSON object [items]. *)
Definition fetch_spec (r : response) (items : list (str * json))
  : result json :=
  if bool_decide (status_code r = 200%Z) then
    match assoc (lit "errors") items with
    | Some errors => Raise (ApiError errors)
    | None => Ok (JDict items)
    end
  else Raise (TransportError (status_code r) (text r)).

(** When a fetch fails, in the words of the specification: the status is
    not success, or the parsed payload carries an error list. *)
Definition fails_by_spec (r : response) : Prop :=
  status_code r <> 200%Z \/
  exists items errors,
    json_body r = Ok (JDict items) /\
    assoc (lit "errors") items = Some errors.

(** The price tier in the words of the specification. *)
Definition price_tier_spec (price : option str) : Z :=
  match price with
  | None => 0%Z
  | Some s => Z.of_nat (length s)
  end.

(** The cache key in the words of the specification:
    [{business_alias}_{md5(photo_url)}.jpg]. *)
Definition cache_key (alias photo : str) : option str :=
  match encode_utf8 photo with
  | Some encoded => Some (alias ++ lit "_" ++ MD5.hexdigest encoded ++ lit ".jpg")
  | None => None
  end.

(** The business list is absent from a payload: one of the keys on the
    path [data], [search], [business] is missing from its object. *)
Definition business_list_absent (data : json) : Prop :=
  exists items,
    data = JDict items /\
    (assoc (lit "data") items = None \/
     exists d, assoc (lit "data") items = Some (JDict d) /\
       (assoc (lit "search") d = None \/
        exists s, assoc (lit "search") d = Some (JDict s) /\
                  assoc (lit "business") s = None)).

(** What a batch of downloads leaves behind, from [w] to [w']: the new
    traffic and the new log records; no entry of the file system that
    was there is changed; every photo of the batch has its file, or its
    download was answered with a status other than 200 and a warning
    was logged for it; every download answered with 200 is in its
    file. *)
Definition download_post (target : str) (photos : list photo_tuple)
           (w w' : world Net) : Prop :=
  exists new new_log,
    traffic w' = traffic w ++ new /\
    logging w' = logging w ++ new_log /\
    (forall p, is_Some (fs w !! p) -> fs w' !! p = fs w !! p) /\
    (forall photo, photo ∈ photos ->
       is_Some (fs w' !! path_join target (tuple_file_name photo)) \/
       exists resp,
         (GET (tuple_photo_url photo), resp) ∈ new /\
         status_code resp <> 200%Z /\
         LogWarning (tuple_photo_url photo) (status_code resp) (text resp)
           ∈ new_log) /\
    (forall req resp, (req, resp) ∈ new ->
       exists photo,
         photo ∈ photos /\ req = GET (tuple_photo_url photo) /\
         (status_code resp = 200%Z ->
          fs w' !! path_join target (tuple_file_name photo)
          = Some (File (content resp))) /\
         (status_code resp <> 200%Z ->
          LogWarning (tuple_photo_url photo) (status_code resp) (text resp)
            ∈ new_log)).


(** The business entries of the page a response carries. *)
Definition page_entries (r : response) : result (list json) :=
  data <- check_response r ;;
  page_businesses data.

(** The responses received from the state [w] on, in the traffic of
    [w']. *)
Definition responses_since (w w' : world Net) : list response :=
  snd <$> drop (length (traffic w)) (traffic w').

Definition is_hex (c : N) : Prop :=
  (48 <= c <= 57 \/ 97 <= c <= 102)%N.

(** [int(s)] for a string of decimal digits. *)
Definition N_of_digits (s : str) : N :=
  fold_left (fun n c => (10 * n + (c - 48))%N) s 0%N.

(** A value that is equal, for a set, to itself only: [None] and the
    strings. *)
Definition alone_in_set (v : json) : Prop :=
  forall y, py_eqb v y = true -> y = v.

(** A cell read through [business.get(outer, {}).get(k)], where [o] is the
    [outer] field of the entry when it has one: the field [k] of that
    object, [None] when [k] or the outer field is missing. *)
Definition nested_field (o : option json) (k : string) (cell : json) : Prop :=
  match o with
  | None => cell = JNone
  | Some v =>
      exists fields,
        v = JDict fields /\
        cell = match assoc (lit k) fields with Some x => x | None => JNone end
  end.

(** The state once a record was logged, and once a file was written. *)
Definition logged (r : log_record) (w : world Net) : world Net :=
  (log r w).2.

Definition saved (p : str) (d : bytes) (w : world Net) : world Net :=
  (write_file p d w).2.

(** The state in which [main] calls [get_yelp_data]. *)
Definition main_before_harvest (w : world Net) : world Net :=
  logged (LogInfo (lit "Downloading data"))
         (if present_in w DATA_PATH then w
          else (os_makedirs DATA_PATH
                  (logged (LogInfo (lit "Creating " ++ DATA_PATH)) w)).2).

(** The state in which [main] calls [download_photos], from the state the
    harvest left. *)
Definition main_before_photos (frames : dataframe * dataframe * dataframe)
           (w1 : world Net) : world Net :=
  logged (LogInfo (lit "Downloading photos"))
    (logged (LogInfo (lit "Data saved"))
       (saved photos_csv_path (to_csv frames.2)
          (saved reviews_csv_path (to_csv frames.1.2)
             (saved businesses_csv_path (to_csv frames.1.1)
                (logged (LogInfo (lit "Saving data"))
                   (logged (LogInfo (lit "Data downloaded")) w1)))))).

Definition is_POST (x : request * response) : Prop :=
  match x.1 with POST _ _ _ => True | GET _ => False end.

(** ** Properties *)

Local Open Scope nat_scope.

(** *** The exception monad and its loops *)

Lemma bind_Ok {A B} (r : result A) (k : A -> result B) (b : B) :
  bind r k = Ok b -> exists a, r = Ok a /\ k a = Ok b.
Proof. destruct r as [a|e]; simpl; [eauto | discriminate]. Qed.

Lemma bind_Ok_l {A B} (a : A) (k : A -> result B) : bind (Ok a) k = k a.
Proof. done. Qed.

Ltac inv_bind H :=
  repeat match type of H with
         | bind _ _ = Ok _ =>
             let a := fresh "v" in
             let E := fresh "E" in
             apply bind_Ok in H; destruct H as (a & E & H)
         end.

Lemma mapM_Ok_Forall2 {A B} (f : A -> result B) l ys :
  mapM f l = Ok ys <-> Forall2 (fun x y => f x = Ok y) l ys.
Proof.
  split.
  - revert ys; induction l as [|x l IH]; simpl; intros ys H.
    + injection H as <-. constructor.
    + inv_bind H. injection H as <-. constructor; eauto.
  - induction 1 as [|x y l ys Hx _ IH]; simpl; [done|].
    by rewrite Hx, IH.
Qed.

(** Appending one row per element is a comprehension followed by one
    concatenation. *)
Lemma foldM_snoc {A B} (f : A -> result B) l (acc : list B) :
  foldM (fun x acc => r <- f x ;; Ok (acc ++ [r])) l acc
  = (rs <- mapM f l ;; Ok (acc ++ rs)).
Proof.
  revert acc; induction l as [|x l IH]; intros acc; simpl.
  - by rewrite app_nil_r.
  - destruct (f x) as [r|e]; simpl; [|done].
    rewrite IH. destruct (mapM f l); simpl; [|done].
    by rewrite <- app_assoc.
Qed.

(** *** Lookups *)

Lemma dict_get_JDict items k d :
  dict_get (JDict items) k d
  = Ok (match assoc k items with Some v => v | None => d end).
Proof. done. Qed.

(** *** C6: the price tier *)

(** C6. The price tier of a business entry is 0 when the entry has no
    [price] field and the number of characters of the price string
    otherwise; this is the value stored in the [business_price] cell of
    the row whenever the row is built. *)
Theorem price_tier_length (items : list (str * json)) (price : option str) :
  assoc (lit "price") items = JStr <$> price ->
  price_tier (JDict items) = Ok (price_tier_spec price)
  /\ forall row, business_record (JDict items) = Ok row ->
                 business_price row = price_tier_spec price.
Proof.
  intros Hp.
  assert (Ht : price_tier (JDict items) = Ok (price_tier_spec price)).
  { unfold price_tier. rewrite !dict_get_JDict, Hp.
    destruct price as [s|]; reflexivity. }
  split; [exact Ht|].
  intros row H. unfold business_record in H.
  rewrite Ht in H. inv_bind H. injection H as <-. simpl.
  by injection E2 as <-.
Qed.

(** *** C7: a payload without business list *)

(** C7. When the business list is absent from a page payload, the page
    normalises to three empty tables, and no exception is raised. *)
Theorem absent_business_list_is_empty (data : json) :
  business_list_absent data ->
  page_businesses data = Ok [] /\ normalize_page data = Ok ([], [], []).
Proof.
  intros (items & -> & H).
  assert (Hb : page_businesses (JDict items) = Ok []).
  { unfold page_businesses. rewrite dict_get_JDict.
    destruct H as [-> | (d & -> & H)]; [done|].
    rewrite bind_Ok_l, dict_get_JDict.
    destruct H as [-> | (s & -> & Hb)]; [done|].
    by rewrite bind_Ok_l, dict_get_JDict, Hb. }
  split; [exact Hb|]. unfold normalize_page. by rewrite Hb.
Qed.

(** *** C10: null photos, null reviews, null categories *)

Lemma business_record_null_categories items :
  assoc (lit "categories") items = Some JNone ->
  exists e, business_record (JDict items) = Raise e.
Proof.
  intros Hc. unfold business_record.
  repeat match goal with
         | |- exists e, bind ?r _ = Raise e =>
             lazymatch r with
             | category_set _ => fail
             | _ => destruct r as [?|?]; simpl; [|eauto]
             end
         end.
  unfold category_set, categories_of. rewrite dict_get_JDict, Hc. simpl. eauto.
Qed.

(** C10. A [photos] or [reviews] field that is present and null is
    iterated as an empty list: the entry yields no photo row, no review
    row, and its business row alone.  The [categories] field has no such
    guard: when it is null no row is built and an exception is raised. *)
Theorem null_photos_reviews_guarded (items : list (str * json)) :
  (assoc (lit "photos") items = Some JNone ->
   photos_of (JDict items) = Ok []) /\
  (assoc (lit "reviews") items = Some JNone ->
   reviews_of (JDict items) = Ok []) /\
  (assoc (lit "photos") items = Some JNone ->
   assoc (lit "reviews") items = Some JNone ->
   forall row, business_record (JDict items) = Ok row ->
               normalize_business (JDict items) = Ok ([row], [], [])
               /\ forall acc, business_step (JDict items) acc
                              = Ok (tables_app acc ([row], [], []))) /\
  (assoc (lit "categories") items = Some JNone ->
   exists e, business_record (JDict items) = Raise e
             /\ normalize_business (JDict items) = Raise e
             /\ forall acc, business_step (JDict items) acc = Raise e).
Proof.
  assert (Hp : assoc (lit "photos") items = Some JNone ->
               photos_of (JDict items) = Ok []).
  { intros H. unfold photos_of. by rewrite dict_get_JDict, H. }
  assert (Hr : assoc (lit "reviews") items = Some JNone ->
               reviews_of (JDict items) = Ok []).
  { intros H. unfold reviews_of. by rewrite dict_get_JDict, H. }
  repeat split; [exact Hp | exact Hr | | | ].
  - unfold normalize_business. by rewrite H1, (Hp H), (Hr H0).
  - intros [[bs rs] ps]. unfold business_step.
    rewrite H1, (Hp H), (Hr H0). simpl.
    unfold tables_app. simpl. by rewrite !app_nil_r.
  - intros Hc. destruct (business_record_null_categories _ Hc) as [e He].
    exists e. split; [exact He|]. split.
    + unfold normalize_business. by rewrite He.
    + intros [[bs rs] ps]. unfold business_step. by rewrite He.
Qed.

(** *** C2: categories and parent categories without duplicates *)

Lemma num_eqb_refl x : num_eqb x x = true.
Proof. unfold num_eqb. apply Z.eqb_refl. Qed.

Lemma py_eqb_refl v : hashable v = true -> py_eqb v v = true.
Proof.
  destruct v as [|b|z|[neg m e|[]|]|s|l|items]; intros H; try done;
    unfold py_eqb; simpl; try apply num_eqb_refl.
  by apply bool_decide_eq_true.
Qed.

Lemma py_eqb_JStr s v : py_eqb (JStr s) v = true -> v = JStr s.
Proof.
  unfold py_eqb. simpl.
  destruct v as [|b|z|[neg m e|neg|]|t|l|items]; simpl; try done.
  intros H. apply bool_decide_eq_true in H. by subst.
Qed.

Lemma set_add_spec v s s' :
  set_add v s = Ok s' ->
  NoDup s ->
  NoDup s' /\ forall a, JStr a ∈ s' <-> JStr a ∈ s \/ JStr a = v.
Proof.
  unfold set_add. destruct (hashable v) eqn:Hh; [|done].
  destruct (existsb (py_eqb v) s) eqn:Hex; intros [= <-] Hnd.
  - split; [done|]. intros a. split; [auto|]. intros [H | <-]; [done|].
    apply existsb_exists in Hex as (y & Hy & Heq).
    apply py_eqb_JStr in Heq as ->. by apply list_elem_of_In.
  - split.
    + apply NoDup_app. split; [done|]. split; [|apply NoDup_singleton].
      intros x Hx Hv. apply list_elem_of_singleton in Hv as ->.
      assert (existsb (py_eqb v) s = true); [|congruence].
      apply existsb_exists. exists v. split; [by apply list_elem_of_In|].
      by apply py_eqb_refl.
    + intros a. rewrite elem_of_app, list_elem_of_singleton. done.
Qed.

(** A set comprehension: what it holds once every element was added. *)
Lemma set_comprehension_spec {A} (f : A -> result json) l s0 s :
  foldM (fun x s => a <- f x ;; set_add a s) l s0 = Ok s ->
  NoDup s0 ->
  NoDup s /\
  forall a, JStr a ∈ s <-> JStr a ∈ s0 \/ exists x, x ∈ l /\ f x = Ok (JStr a).
Proof.
  revert s0; induction l as [|x l IH]; simpl; intros s0 H Hnd.
  - injection H as <-. split; [done|]. intros a. split; [auto|].
    intros [H | (x & Hx & _)]; [done|]. by apply elem_of_nil in Hx.
  - apply bind_Ok in H as (s1 & E & H).
    apply bind_Ok in E as (v & Ev & Eadd).
    destruct (set_add_spec _ _ _ Eadd Hnd) as [Hnd' Hin].
    destruct (IH _ H Hnd') as [Hnd'' Hin']. split; [done|].
    intros a. rewrite Hin', Hin. split.
    + intros [[H1 | H1] | (y & Hy & Hfy)]; [auto| |].
      * right. exists x. split; [left|congruence].
      * right. exists y. split; [by right|done].
    + intros [H1 | (y & Hy & Hfy)]; [auto|].
      apply elem_of_cons in Hy as [-> | Hy].
      * left. right. congruence.
      * right. eauto.
Qed.

Lemma set_of_list_spec l s :
  set_of_list l = Ok s ->
  NoDup s /\ forall a, JStr a ∈ s <-> JStr a ∈ l.
Proof.
  intros H.
  destruct (set_comprehension_spec Ok l [] s H (NoDup_nil_2)) as [Hnd Hin].
  split; [done|]. intros a. rewrite Hin. split.
  - intros [H1 | (x & Hx & [= ->])]; [by apply elem_of_nil in H1 | done].
  - intros H1. right. eauto.
Qed.

Lemma mapM_elem_of {A B} (f : A -> result B) l ys y :
  mapM f l = Ok ys -> y ∈ ys <-> exists x, x ∈ l /\ f x = Ok y.
Proof.
  intros H. apply mapM_Ok_Forall2 in H.
  induction H as [|x y' l ys Hx _ IH].
  - split; [intros H%elem_of_nil; done|].
    intros (x & H%elem_of_nil & _); done.
  - rewrite elem_of_cons, IH. split.
    + intros [-> | (x' & Hx' & Hf)]; [exists x | exists x'];
        (split; [|done]); [left | by right].
    + intros (x' & [-> | Hx']%elem_of_cons & Hf); [left; congruence|eauto].
Qed.

Lemma parent_aliases_elem_of business parents a :
  parent_aliases business = Ok parents ->
  a ∈ parents <->
  exists cats cat parent_cats parent_cat,
    categories_of business = Ok cats /\ cat ∈ cats /\
    parent_categories_of cat = Ok parent_cats /\
    parent_cat ∈ parent_cats /\
    dict_get parent_cat (lit "alias") JNone = Ok a.
Proof.
  unfold parent_aliases. intros H. inv_bind H. injection H as <-.
  rename v into cats, v0 into ls.
  rewrite list_elem_of_In, in_concat. split.
  - intros (l & Hl%list_elem_of_In & Ha%list_elem_of_In).
    apply (mapM_elem_of _ _ _ _ E0) in Hl as (cat & Hcat & Hf).
    inv_bind Hf. rename v into parent_cats.
    apply (mapM_elem_of _ _ _ _ Hf) in Ha as (parent_cat & Hp & Hg).
    by exists cats, cat, parent_cats, parent_cat.
  - intros (cats' & cat & parent_cats & parent_cat & Hc & Hcat & Hpc & Hp & Hg).
    assert (cats' = cats) as -> by congruence.
    destruct (mapM (fun pc => dict_get pc (lit "alias") JNone) parent_cats)
      as [l|e] eqn:El.
    + exists l. split; apply list_elem_of_In.
      * apply (mapM_elem_of _ _ _ _ E0). exists cat. split; [done|].
        by rewrite Hpc.
      * apply (mapM_elem_of _ _ _ _ El). eauto.
    + exfalso.
      assert (exists l, l ∈ ls /\
                (parent_cats <- parent_categories_of cat ;;
                 mapM (fun pc => dict_get pc (lit "alias") JNone) parent_cats)
                = Ok l) as (l & _ & Hl).
      { apply mapM_Ok_Forall2 in E0.
        apply list_elem_of_lookup in Hcat as [i Hi].
        destruct (Forall2_lookup_l _ _ _ _ _ E0 Hi) as (l & Hl & Hf).
        exists l. split; [by eapply list_elem_of_lookup_2|done]. }
      rewrite Hpc in Hl. simpl in Hl. congruence.
Qed.

Section Dedup.

Hypothesis set_iter_perm : forall s, set_iter s ≡ₚ s.

(** C2. In the row of a business entry, the categories cell and the
    parent categories cell hold no value twice; an alias string is in
    the categories cell exactly when it is the alias of one of the
    entry's categories, and in the parent categories cell exactly when
    it is the alias of a parent category of one of them, however many
    categories list that parent. *)
Theorem categories_deduplicated (business : json) (row : business_row) :
  business_record business = Ok row ->
  NoDup (business_categories row) /\
  NoDup (business_parent_categories row) /\
  exists cats,
    categories_of business = Ok cats /\
    (forall a, JStr a ∈ business_categories row <->
               exists cat, cat ∈ cats /\
                 dict_get cat (lit "alias") JNone = Ok (JStr a)) /\
    (forall a, JStr a ∈ business_parent_categories row <->
               exists cat parent_cats parent_cat,
                 cat ∈ cats /\
                 parent_categories_of cat = Ok parent_cats /\
                 parent_cat ∈ parent_cats /\
                 dict_get parent_cat (lit "alias") JNone = Ok (JStr a)).
Proof.
  intros H. unfold business_record in H. inv_bind H.
  injection H as <-. simpl.
  rename v15 into cset, v16 into parents, v17 into pset.
  unfold category_set in E15. inv_bind E15. rename v15 into cats.
  destruct (set_comprehension_spec _ _ _ _ E15 NoDup_nil_2) as [Hnd Hin].
  destruct (set_of_list_spec _ _ E17) as [Hnd' Hin'].
  rewrite !set_iter_perm. split; [done|]. split; [done|].
  exists cats. split; [done|]. split.
  - intros a. rewrite set_iter_perm, Hin. split.
    + intros [H%elem_of_nil | H]; done.
    + auto.
  - intros a. rewrite set_iter_perm, Hin'.
    rewrite (parent_aliases_elem_of _ _ _ E16). split.
    + intros (cats' & cat & pcs & pc & Hc & ?). exists cat, pcs, pc.
      by replace cats with cats' by congruence.
    + intros (cat & pcs & pc & ?). by exists cats, cat, pcs, pc.
Qed.

End Dedup.

(** *** Tables *)

Lemma tables_app_nil_r t : tables_app t ([], [], []) = t.
Proof. destruct t as [[bs rs] ps]. unfold tables_app. simpl.
       by rewrite !app_nil_r. Qed.

Lemma tables_app_nil_l t : tables_app ([], [], []) t = t.
Proof. by destruct t as [[bs rs] ps]. Qed.

Lemma tables_app_assoc a b c :
  tables_app (tables_app a b) c = tables_app a (tables_app b c).
Proof. unfold tables_app. simpl. by rewrite !app_assoc. Qed.

Lemma tables_concat_cons t ts :
  tables_concat (t :: ts) = tables_app t (tables_concat ts).
Proof. done. Qed.

Lemma tables_concat_app ts1 ts2 :
  tables_concat (ts1 ++ ts2)
  = tables_app (tables_concat ts1) (tables_concat ts2).
Proof.
  induction ts1 as [|t ts1 IH]; simpl.
  - by rewrite tables_app_nil_l.
  - by rewrite !tables_concat_cons, IH, tables_app_assoc.
Qed.

(** *** The normaliser, one entry and one page at a time *)

Lemma business_step_normalize business acc :
  business_step business acc
  = (t <- normalize_business business ;; Ok (tables_app acc t)).
Proof.
  destruct acc as [[bs rs] ps]. unfold business_step, normalize_business.
  destruct (business_record business) as [row|e]; simpl; [|done].
  destruct (photos_of business) as [pl|e]; simpl; [|done].
  rewrite foldM_snoc.
  destruct (mapM (photo_record business) pl) as [prs|e]; simpl; [|done].
  destruct (reviews_of business) as [rl|e]; simpl; [|done].
  rewrite foldM_snoc.
  by destruct (mapM (review_record business) rl) as [rrs|e].
Qed.

Lemma foldM_business_step bl acc :
  foldM business_step bl acc
  = (ts <- mapM normalize_business bl ;;
     Ok (tables_app acc (tables_concat ts))).
Proof.
  revert acc; induction bl as [|b bl IH]; intros acc; simpl.
  - by rewrite tables_app_nil_r.
  - rewrite business_step_normalize.
    destruct (normalize_business b) as [t|e]; simpl; [|done].
    rewrite IH. destruct (mapM normalize_business bl) as [ts|e]; simpl;
      [|done].
    by rewrite tables_concat_cons, tables_app_assoc.
Qed.

(** One iteration of the offset loop: one POST, then the page of its
    response is appended, or its exception ends the run. *)
Lemma page_step_eq category location offset acc w :
  page_step category location offset acc w
  = let query := build_query category location offset limit in
    let r := (http_post (net w) url headers query).1 in
    (pg <- page_of r ;; Ok (tables_app acc pg),
     {| net := (http_post (net w) url headers query).2;
        traffic := traffic w ++ [(POST url headers query, r)];
        fs := fs w;
        logging := logging w |}).
Proof.
  unfold page_step, bindM, requests_post, lift. simpl.
  destruct (http_post _ _ _ _) as [r n]. simpl. f_equal.
  unfold page_of, normalize_page.
  destruct (check_response r) as [data|e]; simpl; [|done].
  destruct (page_businesses data) as [bl|e]; simpl; [|done].
  rewrite foldM_business_step.
  by destruct (mapM normalize_business bl).
Qed.

(** *** Loops with effects *)

Lemma for_each_app {A S} (body : A -> S -> M S) l1 l2 s w :
  for_each body (l1 ++ l2) s w
  = (s' <~ for_each body l1 s ;; for_each body l2 s') w.
Proof.
  revert s w; induction l1 as [|x l1 IH]; intros s w; simpl; [done|].
  unfold bindM. destruct (body x s w) as [[s'|e] w']; [|done].
  rewrite IH. done.
Qed.

Lemma for_each_fmap {A B S} (f : A -> B) (body : B -> S -> M S) l s w :
  for_each body (f <$> l) s w = for_each (fun x => body (f x)) l s w.
Proof.
  revert s w; induction l as [|x l IH]; intros s w; simpl; [done|].
  unfold bindM. destruct (body (f x) s w) as [[s'|e] w']; [|done].
  apply IH.
Qed.

(** Two nested loops run their body over the pairs in iteration
    order. *)
Lemma for_each_nested {A B S} (body : A -> B -> S -> M S)
      (inner : list B) l s w :
  for_each (fun x acc => for_each (body x) inner acc) l s w
  = for_each (fun p => body p.1 p.2)
             (flat_map (fun x => (fun y => (x, y)) <$> inner) l) s w.
Proof.
  revert s w; induction l as [|x l IH]; intros s w; simpl; [done|].
  rewrite for_each_app. unfold bindM.
  rewrite for_each_fmap. simpl.
  destruct (for_each (body x) inner s w) as [[s'|e] w']; [|done].
  apply IH.
Qed.

Lemma get_yelp_data_plan locations category w :
  get_yelp_data locations category w
  = for_each (fun p => page_step category p.1 p.2) (plan locations)
             ([], [], []) w.
Proof. unfold get_yelp_data, plan, offsets. apply for_each_nested. Qed.

(** The run over a plan: it posts the requests of the plan in order, one
    per pair, until a page raises; a run that returns has posted all of
    them and returns the pages of the responses, concatenated. *)
Lemma run_trace category pl acc w r w' :
  for_each (fun p => page_step category p.1 p.2) pl acc w = (r, w') ->
  exists resps,
    traffic w' = traffic w ++ zip (page_request category <$> pl) resps /\
    length resps <= length pl /\
    fs w' = fs w /\ logging w' = logging w /\
    match r with
    | Ok acc' =>
        length resps = length pl /\
        exists pages,
          Forall2 (fun resp pg => page_of resp = Ok pg) resps pages /\
          acc' = tables_app acc (tables_concat pages)
    | Raise e =>
        exists resps0 resp,
          resps = resps0 ++ [resp] /\
          Forall (fun resp => exists pg, page_of resp = Ok pg) resps0 /\
          page_of resp = Raise e
    end.
Proof.
  revert acc w r w'; induction pl as [|[location offset] pl IH];
    intros acc w r w' H; simpl in H.
  - injection H as <- <-. exists []. simpl. rewrite app_nil_r.
    repeat split; try done. exists []. split; [constructor|].
    by rewrite tables_app_nil_r.
  - unfold bindM in H. rewrite page_step_eq in H. simpl in H.
    set (q := build_query category location offset limit) in *.
    set (resp := (http_post (net w) url headers q).1) in *.
    destruct (page_of resp) as [pg|e] eqn:Hpg; simpl in H.
    + apply IH in H as (resps & Ht & Hlen & Hfs & Hlog & Hr).
      simpl in Ht, Hfs, Hlog. exists (resp :: resps).
      split; [by rewrite Ht, <- app_assoc|].
      split; [simpl; lia|]. split; [done|]. split; [done|].
      destruct r as [acc'|e].
      * destruct Hr as (Hl & pages & HF & ->). split; [simpl; lia|].
        exists (pg :: pages). split; [by constructor|].
        by rewrite tables_concat_cons, tables_app_assoc.
      * destruct Hr as (resps0 & last & -> & HF & He).
        exists (resp :: resps0), last. split; [done|].
        split; [constructor; eauto|done].
    + injection H as <- <-. exists [resp]. simpl.
      split; [by rewrite zip_with_nil_r|]. split; [lia|]. split; [done|]. split; [done|].
      exists [], resp. split; [done|]. split; [constructor|done].
Qed.

(** *** What a run returns, entry by entry *)

Lemma page_of_groups resp pg :
  page_of resp = Ok pg ->
  exists data entries groups,
    check_response resp = Ok data /\
    page_businesses data = Ok entries /\
    Forall2 (fun b g => normalize_business b = Ok g) entries groups /\
    pg = tables_concat groups.
Proof.
  unfold page_of, normalize_page. intros H.
  apply bind_Ok in H as (data & Hd & H).
  apply bind_Ok in H as (entries & Hb & H).
  apply bind_Ok in H as (groups & Hg & [= <-]).
  exists data, entries, groups. by rewrite <- mapM_Ok_Forall2.
Qed.

Lemma pages_groups resps pages :
  Forall2 (fun resp pg => page_of resp = Ok pg) resps pages ->
  exists entries groups,
    Forall2 (fun b g => normalize_business b = Ok g) entries groups /\
    tables_concat pages = tables_concat groups.
Proof.
  induction 1 as [|resp pg resps pages Hpg _ (entries & groups & HF & Heq)].
  - exists [], []. split; [constructor|done].
  - apply page_of_groups in Hpg as (_ & bl & ts & _ & _ & Hts & ->).
    exists (bl ++ entries), (ts ++ groups).
    split; [by apply Forall2_app|].
    by rewrite tables_concat_cons, tables_concat_app, Heq.
Qed.

(** The tables a run returns are those of the business entries it
    normalised, concatenated. *)
Lemma get_yelp_data_groups locations category w t w' :
  get_yelp_data locations category w = (Ok t, w') ->
  exists entries groups,
    Forall2 (fun b g => normalize_business b = Ok g) entries groups /\
    t = tables_concat groups.
Proof.
  rewrite get_yelp_data_plan. intros H.
  apply run_trace in H as (resps & _ & _ & _ & _ & _ & pages & HF & ->).
  rewrite tables_app_nil_l. by apply (pages_groups resps).
Qed.

Lemma normalize_business_rows b g :
  normalize_business b = Ok g ->
  exists row photo_list review_list,
    business_record b = Ok row /\ g.1.1 = [row] /\
    photos_of b = Ok photo_list /\
    Forall2 (fun photo p => photo_record b photo = Ok p) photo_list g.2 /\
    reviews_of b = Ok review_list /\
    Forall2 (fun review r => review_record b review = Ok r) review_list g.1.2.
Proof.
  unfold normalize_business. intros H.
  apply bind_Ok in H as (row & Hrow & H).
  apply bind_Ok in H as (pl & Hpl & H).
  apply bind_Ok in H as (ps & Hps & H).
  apply bind_Ok in H as (rl & Hrl & H).
  apply bind_Ok in H as (rs & Hrs & [= <-]).
  exists row, pl, rl. simpl. by rewrite <- !mapM_Ok_Forall2.
Qed.

Lemma elem_of_tables_concat_reviews groups r :
  r ∈ (tables_concat groups).1.2 <-> exists g, g ∈ groups /\ r ∈ g.1.2.
Proof.
  unfold tables_concat. simpl.
  rewrite list_elem_of_In, in_concat. split.
  - intros (l & Hl%list_elem_of_In & Hr%list_elem_of_In).
    apply list_elem_of_fmap in Hl as (g & -> & Hg). eauto.
  - intros (g & Hg & Hr). exists (g.1.2).
    split; apply list_elem_of_In; [|done].
    apply list_elem_of_fmap. eauto.
Qed.

Lemma elem_of_tables_concat_photos groups p :
  p ∈ (tables_concat groups).2 <-> exists g, g ∈ groups /\ p ∈ g.2.
Proof.
  unfold tables_concat. simpl.
  rewrite list_elem_of_In, in_concat. split.
  - intros (l & Hl%list_elem_of_In & Hr%list_elem_of_In).
    apply list_elem_of_fmap in Hl as (g & -> & Hg). eauto.
  - intros (g & Hg & Hr). exists (g.2).
    split; apply list_elem_of_In; [|done].
    apply list_elem_of_fmap. eauto.
Qed.

Lemma elem_of_tables_concat_businesses groups row :
  row ∈ (tables_concat groups).1.1 <-> exists g, g ∈ groups /\ row ∈ g.1.1.
Proof.
  unfold tables_concat. simpl.
  rewrite list_elem_of_In, in_concat. split.
  - intros (l & Hl%list_elem_of_In & Hr%list_elem_of_In).
    apply list_elem_of_fmap in Hl as (g & -> & Hg). eauto.
  - intros (g & Hg & Hr). exists (g.1.1).
    split; apply list_elem_of_In; [|done].
    apply list_elem_of_fmap. eauto.
Qed.

(** *** C1: pagination *)

Lemma offsets_eq : offsets = [0; 50; 100; 150]%N.
Proof. reflexivity. Qed.

Lemma length_plan locations : length (plan locations) = 4 * length locations.
Proof.
  unfold plan. rewrite offsets_eq.
  induction locations as [|l ls IH]; simpl in *; [done|]. rewrite IH. lia.
Qed.

(** C1. In every run the requests posted are those of the plan, in
    order and one per pair: for each location in turn, the offsets 0, 50,
    100 and 150 (the multiples of [limit] below [count]).  A run stops
    before the end of the plan only when a page raises, never because a
    page holds few businesses or none; a run that returns has posted the
    whole plan and returns the pages of the responses, concatenated in
    that order. *)
Theorem get_yelp_data_pagination
        (locations : list str) (category : str) (w w' : world Net)
        (r : result tables) :
  get_yelp_data locations category w = (r, w') ->
  plan locations
  = flat_map (fun location => [(location, 0%N); (location, 50%N);
                               (location, 100%N); (location, 150%N)])
             locations /\
  length (plan locations) = 4 * length locations /\
  (forall offset, offset ∈ offsets <->
                  (offset < count)%N /\ (offset mod limit = 0)%N) /\
  exists resps,
    traffic w'
    = traffic w ++ zip (page_request category <$> plan locations) resps /\
    length resps <= length (plan locations) /\
    match r with
    | Ok t =>
        length resps = length (plan locations) /\
        exists pages,
          Forall2 (fun resp pg => page_of resp = Ok pg) resps pages /\
          t = tables_concat pages
    | Raise e =>
        exists resps0 resp,
          resps = resps0 ++ [resp] /\
          Forall (fun resp => exists pg, page_of resp = Ok pg) resps0 /\
          page_of resp = Raise e
    end.
Proof.
  intros H. split; [done|]. split; [apply length_plan|]. split.
  - intros offset. rewrite offsets_eq. unfold count, limit.
    rewrite !elem_of_cons, elem_of_nil. split.
    + intros [-> | [-> | [-> | [-> | []]]]]; done.
    + intros [Hlt Hmod].
      assert (offset = 50 * (offset / 50))%N as Hd.
      { rewrite (N.div_mod offset 50) at 1 by done. lia. }
      assert (offset / 50 < 4)%N by (apply N.Div0.div_lt_upper_bound; lia).
      assert (offset / 50 = 0 \/ offset / 50 = 1 \/ offset / 50 = 2
              \/ offset / 50 = 3)%N as Hc by lia.
      destruct Hc as [Hc | [Hc | [Hc | Hc]]]; rewrite Hc in Hd; auto.
  - rewrite get_yelp_data_plan in H.
    apply run_trace in H as (resps & Ht & Hlen & _ & _ & Hr).
    exists resps. split; [done|]. split; [done|].
    destruct r as [t|e]; [|done].
    destruct Hr as (Hl & pages & HF & ->). split; [done|].
    exists pages. by rewrite tables_app_nil_l.
Qed.

(** *** C3: failing fetches *)

Lemma check_response_fetch_spec resp items :
  (status_code resp = 200%Z -> json_body resp = Ok (JDict items)) ->
  check_response resp = fetch_spec resp items.
Proof.
  intros H. unfold check_response, fetch_spec.
  case_bool_decide as Hs.
  - rewrite Hs, (H Hs). simpl.
    by destruct (assoc (lit "errors") items).
  - by apply Z.eqb_neq in Hs as ->.
Qed.

Lemma check_response_page_of resp e :
  check_response resp = Raise e -> page_of resp = Raise e.
Proof. unfold page_of. by intros ->. Qed.

Lemma check_response_not_200 resp :
  status_code resp <> 200%Z ->
  check_response resp
  = Raise (TransportError (status_code resp) (text resp)).
Proof.
  intros Hs. unfold check_response. by apply Z.eqb_neq in Hs as ->.
Qed.

Lemma check_response_bad_body resp e :
  status_code resp = 200%Z -> json_body resp = Raise e ->
  check_response resp = Raise e.
Proof. intros Hs Hj. unfold check_response. by rewrite Hs, Hj. Qed.

Lemma check_response_non_object resp data :
  status_code resp = 200%Z -> json_body resp = Ok data ->
  (forall items, data <> JDict items) ->
  check_response resp
  = match py_in (lit "errors") data with
    | Ok false => Ok data
    | _ => Raise TypeError
    end.
Proof.
  intros Hs Hj Hd. unfold check_response. rewrite Hs, Hj. simpl.
  destruct data as [|b|z|f|s|l|items]; simpl; try done.
  by destruct (Hd items).
Qed.

(** C3, as the code has it.  A fetch of a run fails with the transport
    error when the status code is not 200.  When it is 200 and the body is
    a JSON object, it fails with the API error exactly when the object has
    an [errors] entry, and yields the payload otherwise.  A fetch also
    fails when neither holds: when the status is 200 and the body is not
    JSON the decoder's exception is raised, and when the body is JSON but
    not an object, [TypeError] is raised if the test for ["errors"] raises
    or succeeds (a string or a list without it passes, and is the
    payload).  When a fetch fails the run
    raises that exception: no further request is posted and no table is
    returned. *)
Theorem page_fetch_fail_fast
        (locations : list str) (category : str) (w w' : world Net)
        (r : result tables) :
  get_yelp_data locations category w = (r, w') ->
  exists new,
    traffic w' = traffic w ++ new /\
    forall i req resp,
      new !! i = Some (req, resp) ->
      (forall items,
          (status_code resp = 200%Z -> json_body resp = Ok (JDict items)) ->
          check_response resp = fetch_spec resp items) /\
      (status_code resp <> 200%Z ->
       check_response resp
       = Raise (TransportError (status_code resp) (text resp))) /\
      (status_code resp = 200%Z ->
       (forall e, json_body resp = Raise e -> check_response resp = Raise e) /\
       (forall data,
           json_body resp = Ok data ->
           (forall items, data <> JDict items) ->
           check_response resp
           = match py_in (lit "errors") data with
             | Ok false => Ok data
             | _ => Raise TypeError
             end)) /\
      (forall e, check_response resp = Raise e ->
                 r = Raise e /\ S i = length new).
Proof.
  rewrite get_yelp_data_plan. intros H.
  apply run_trace in H as (resps & Ht & Hlen & _ & _ & Hr).
  eexists. split; [exact Ht|]. intros i req resp Hi.
  split; [intros items; apply check_response_fetch_spec|].
  split; [apply check_response_not_200|].
  split.
  { intros Hs. split.
    - intros e. by apply check_response_bad_body.
    - intros data. by apply check_response_non_object. }
  intros e He%check_response_page_of.
  apply lookup_zip_with_Some in Hi as (req' & resp' & [= <- <-] & _ & Hi).
  destruct r as [acc'|e'].
  - destruct Hr as (_ & pages & HF & _).
    destruct (Forall2_lookup_l _ _ _ _ _ HF Hi) as (pg & _ & Hpg). congruence.
  - destruct Hr as (resps0 & last & -> & HF & Hlast).
    rewrite length_zip_with, length_fmap, length_app in *. simpl in *.
    destruct (decide (i < length resps0)) as [Hlt|Hge].
    + rewrite lookup_app_l in Hi by done.
      rewrite Forall_lookup in HF. destruct (HF _ _ Hi) as [pg Hpg].
      congruence.
    + rewrite lookup_app_r in Hi by lia.
      destruct (i - length resps0) as [|n] eqn:Hn; simpl in Hi; [|done].
      injection Hi as <-. split; [congruence|lia].
Qed.

(** *** C9: rows refer to their business *)

Lemma business_record_alias b row :
  business_record b = Ok row ->
  dict_get b (lit "alias") JNone = Ok (business_alias row).
Proof.
  unfold business_record. intros H.
  apply bind_Ok in H as (alias & Ha & H). inv_bind H.
  by injection H as <-.
Qed.

Lemma review_record_alias b review r :
  review_record b review = Ok r ->
  dict_get b (lit "alias") JNone = Ok (review_business_alias r).
Proof.
  unfold review_record. intros H.
  apply bind_Ok in H as (alias & Ha & H). inv_bind H.
  by injection H as <-.
Qed.

Lemma photo_record_key b photo p :
  photo_record b photo = Ok p ->
  exists alias url,
    dict_get b (lit "alias") JNone = Ok (JStr alias) /\
    photo = JStr url /\
    photo_business_alias p = JStr alias /\
    photo_url p = JStr url /\
    cache_key alias url = Some (file_name p).
Proof.
  unfold photo_record. intros H.
  apply bind_Ok in H as (alias & Ha & H).
  apply bind_Ok in H as (a & Ha' & H).
  apply bind_Ok in H as (stem & Hs & H).
  apply bind_Ok in H as (encoded & He & [= <-]).
  assert (a = alias) as -> by congruence.
  destruct alias as [| | | |alias| |]; try done. injection Hs as <-.
  destruct photo as [| | | |url| |]; try done. simpl in He.
  destruct (encode_utf8 url) as [enc|] eqn:Henc; [|done].
  injection He as <-. exists alias, url. simpl.
  unfold cache_key. rewrite Henc. by rewrite <- app_assoc.
Qed.

Lemma normalize_business_aliases b g :
  normalize_business b = Ok g ->
  exists row,
    g.1.1 = [row] /\
    Forall (fun r => review_business_alias r = business_alias row) g.1.2 /\
    Forall (fun p => photo_business_alias p = business_alias row) g.2.
Proof.
  intros H.
  apply normalize_business_rows in H
    as (row & pl & rl & Hrow & Hg & _ & Hps & _ & Hrs).
  apply business_record_alias in Hrow.
  exists row. split; [done|]. split.
  - apply Forall_forall. intros r Hr.
    apply list_elem_of_lookup in Hr as [i Hi].
    destruct (Forall2_lookup_r _ _ _ _ _ Hrs Hi) as (review & _ & Hrr).
    apply review_record_alias in Hrr. congruence.
  - apply Forall_forall. intros p Hp.
    apply list_elem_of_lookup in Hp as [i Hi].
    destruct (Forall2_lookup_r _ _ _ _ _ Hps Hi) as (photo & _ & Hpp).
    apply photo_record_key in Hpp as (alias & url & Ha & _ & Hpa & _).
    congruence.
Qed.

(** C9. The tables a run returns are made of groups, one per business
    entry normalised: the entry's business row, its review rows and its
    photo rows, all of which carry the alias of that business row.  Hence
    every review row and every photo row returned refers to a business
    row returned. *)
Theorem harvest_referential_integrity
        (locations : list str) (category : str) (w w' : world Net)
        (bs : list business_row) (rs : list review_row)
        (ps : list photo_row) :
  get_yelp_data locations category w = (Ok (bs, rs, ps), w') ->
  (exists entries groups,
      Forall2 (fun b g => normalize_business b = Ok g) entries groups /\
      (bs, rs, ps) = tables_concat groups /\
      Forall (fun g : tables =>
                exists row,
                  g.1.1 = [row] /\
                  Forall (fun r => review_business_alias r
                                   = business_alias row) g.1.2 /\
                  Forall (fun p => photo_business_alias p
                                   = business_alias row) g.2)
             groups) /\
  (forall r, r ∈ rs ->
             exists row, row ∈ bs /\
                         business_alias row = review_business_alias r) /\
  (forall p, p ∈ ps ->
             exists row, row ∈ bs /\
                         business_alias row = photo_business_alias p).
Proof.
  intros H. apply get_yelp_data_groups in H as (entries & groups & HF & Ht).
  assert (HG : Forall (fun g : tables =>
                exists row,
                  g.1.1 = [row] /\
                  Forall (fun r => review_business_alias r
                                   = business_alias row) g.1.2 /\
                  Forall (fun p => photo_business_alias p
                                   = business_alias row) g.2) groups).
  { apply Forall_forall. intros g Hg.
    apply list_elem_of_lookup in Hg as [i Hi].
    destruct (Forall2_lookup_r _ _ _ _ _ HF Hi) as (b & _ & Hb).
    by apply normalize_business_aliases in Hb. }
  split; [by exists entries, groups|].
  assert (bs = (tables_concat groups).1.1) as -> by by rewrite <- Ht.
  assert (rs = (tables_concat groups).1.2) as -> by by rewrite <- Ht.
  assert (ps = (tables_concat groups).2) as -> by by rewrite <- Ht.
  rewrite Forall_forall in HG. split.
  - intros r (g & Hg & Hr)%elem_of_tables_concat_reviews.
    destruct (HG g Hg) as (row & Hrow & Hrs & _).
    rewrite Forall_forall in Hrs. exists row. split; [|by rewrite Hrs].
    apply elem_of_tables_concat_businesses. exists g. split; [done|].
    rewrite Hrow. by left.
  - intros p (g & Hg & Hp)%elem_of_tables_concat_photos.
    destruct (HG g Hg) as (row & Hrow & _ & Hps).
    rewrite Forall_forall in Hps. exists row. split; [|by rewrite Hps].
    apply elem_of_tables_concat_businesses. exists g. split; [done|].
    rewrite Hrow. by left.
Qed.

(** *** C4: the cache key *)

(** C4. The file name of a photo row is the cache key of its alias and
    its URL, [alias ++ "_" ++ md5 (utf8 url) ++ ".jpg"]: a photo record is
    built with exactly this name whenever the alias is a string and the
    URL a string that can be encoded, and every photo row a run returns
    carries it.  For one alias, two URLs get the same name exactly when
    their MD5 digests coincide. *)
Theorem photo_file_name_is_cache_key
        (locations : list str) (category : str) (w w' : world Net)
        (bs : list business_row) (rs : list review_row)
        (ps : list photo_row) :
  get_yelp_data locations category w = (Ok (bs, rs, ps), w') ->
  (forall p, p ∈ ps ->
             exists alias url,
               photo_business_alias p = JStr alias /\
               photo_url p = JStr url /\
               cache_key alias url = Some (file_name p)) /\
  (forall items alias url key,
      assoc (lit "alias") items = Some (JStr alias) ->
      cache_key alias url = Some key ->
      photo_record (JDict items) (JStr url)
      = Ok {| photo_business_alias := JStr alias;
              photo_url := JStr url;
              file_name := key |}) /\
  (forall alias u1 u2 e1 e2,
      encode_utf8 u1 = Some e1 ->
      encode_utf8 u2 = Some e2 ->
      cache_key alias u1 = cache_key alias u2
      <-> MD5.hexdigest e1 = MD5.hexdigest e2).
Proof.
  intros H. split; [|split].
  - apply get_yelp_data_groups in H as (entries & groups & HF & Ht).
    assert (ps = (tables_concat groups).2) as -> by by rewrite <- Ht.
    intros p (g & Hg & Hp)%elem_of_tables_concat_photos.
    apply list_elem_of_lookup in Hg as [i Hi].
    destruct (Forall2_lookup_r _ _ _ _ _ HF Hi) as (b & _ & Hb).
    apply normalize_business_rows in Hb
      as (row & pl & rl & _ & _ & _ & Hps & _).
    apply list_elem_of_lookup in Hp as [j Hj].
    destruct (Forall2_lookup_r _ _ _ _ _ Hps Hj) as (photo & _ & Hpp).
    apply photo_record_key in Hpp as (alias & url & _ & _ & ? & ? & ?).
    by exists alias, url.
  - intros items alias url key Ha Hk. unfold photo_record.
    rewrite dict_get_JDict, Ha. simpl.
    unfold cache_key in Hk.
    destruct (encode_utf8 url) as [enc|]; [|done].
    injection Hk as <-. simpl. by rewrite <- app_assoc.
  - intros alias u1 u2 e1 e2 H1 H2. unfold cache_key. rewrite H1, H2.
    split.
    + intros [= Heq]. apply (app_inv_head alias) in Heq.
      apply (app_inv_head (lit "_")) in Heq.
      by apply (app_inv_tail (lit ".jpg")) in Heq.
    + by intros ->.
Qed.

(** *** The photo cache *)

(** One iteration of the download loop, by cases: the file is there; the
    download succeeds; the download fails. *)
Lemma download_step_spec target photo u w :
  let path := path_join target (tuple_file_name photo) in
  let resp := (http_get (net w) (tuple_photo_url photo)).1 in
  download_step target photo u w
  = (Ok tt,
     if bool_decide (is_Some (fs w !! path)) then w
     else if bool_decide (status_code resp = 200%Z) then
       {| net := (http_get (net w) (tuple_photo_url photo)).2;
          traffic := traffic w ++ [(GET (tuple_photo_url photo), resp)];
          fs := <[path := File (content resp)]> (fs w);
          logging := logging w |}
     else
       {| net := (http_get (net w) (tuple_photo_url photo)).2;
          traffic := traffic w ++ [(GET (tuple_photo_url photo), resp)];
          fs := fs w;
          logging := logging w
                     ++ [LogWarning (tuple_photo_url photo)
                                    (status_code resp) (text resp)] |}).
Proof.
  intros path resp. unfold download_step, bindM, os_path_exists. simpl.
  fold path. destruct (bool_decide (is_Some (fs w !! path))); simpl; [done|].
  unfold requests_get. subst resp.
  destruct (http_get (net w) (tuple_photo_url photo)) as [r n]. simpl.
  case_bool_decide as Hs.
  - by rewrite Hs.
  - by apply Z.eqb_neq in Hs as ->.
Qed.

Lemma download_loop_spec target photos w :
  exists w',
    for_each (download_step target) photos tt w = (Ok tt, w') /\
    download_post target photos w w'.
Proof.
  revert w; induction photos as [|photo photos IH]; intros w; simpl.
  - exists w. split; [done|]. exists [], []. rewrite !app_nil_r.
    repeat split; try done.
    + intros photo H%elem_of_nil. done.
    + intros req resp H%elem_of_nil. done.
  - unfold bindM. rewrite download_step_spec.
    set (path := path_join target (tuple_file_name photo)).
    set (resp := (http_get (net w) (tuple_photo_url photo)).1).
    set (w1 := if bool_decide (is_Some (fs w !! path)) then w else _).
    destruct (IH w1) as (w' & Hrun & new & new_log & Ht & Hl & Hkeep & Ha & Hb).
    exists w'. split; [done|].
    assert (Hkeep1 : forall p, is_Some (fs w !! p) -> fs w1 !! p = fs w !! p).
    { intros p Hp. subst w1. case_bool_decide as Hpres; [done|].
      case_bool_decide; simpl; [|done].
      apply lookup_insert_ne. intros <-. done. }
    assert (Hkeep' : forall p, is_Some (fs w !! p) -> fs w' !! p = fs w !! p).
    { intros p Hp. rewrite <- (Hkeep1 p Hp). apply Hkeep.
      by rewrite (Hkeep1 p Hp). }
    destruct (decide (is_Some (fs w !! path))) as [Hpres|Habs].
    { (* the file is there *)
      assert (w1 = w) as Hw by (subst w1; by rewrite bool_decide_eq_true_2).
      rewrite Hw in *. exists new, new_log.
      split; [done|]. split; [done|]. split; [done|]. split.
      - intros ph [-> | Hin]%elem_of_cons; [|by apply Ha].
        left. fold path. by rewrite Hkeep'.
      - intros req r Hin. destruct (Hb req r Hin) as (ph & ? & ?).
        exists ph. split; [by right|done]. }
    destruct (decide (status_code resp = 200%Z)) as [Hok|Hfail].
    { (* the download succeeds *)
      assert (w1 = {| net := (http_get (net w) (tuple_photo_url photo)).2;
                      traffic := traffic w
                                 ++ [(GET (tuple_photo_url photo), resp)];
                      fs := <[path := File (content resp)]> (fs w);
                      logging := logging w |}) as Hw.
      { subst w1. rewrite bool_decide_eq_false_2 by done.
        by rewrite bool_decide_eq_true_2. }
      assert (Hfile : fs w' !! path = Some (File (content resp))).
      { rewrite Hkeep; rewrite Hw; simpl; by rewrite lookup_insert_eq. }
      rewrite Hw in Ht, Hl. simpl in Ht, Hl.
      exists ((GET (tuple_photo_url photo), resp) :: new), new_log.
      split; [by rewrite Ht, <- app_assoc|]. split; [done|].
      split; [done|]. split.
      - intros ph [-> | Hin]%elem_of_cons.
        + left. fold path. by rewrite Hfile.
        + destruct (Ha ph Hin) as [?|(r & ? & ?)]; [by left|].
          right. exists r. split; [by right|done].
      - intros req r [[= -> ->] | Hin]%elem_of_cons.
        + exists photo. split; [by left|]. split; [done|]. split; done.
        + destruct (Hb req r Hin) as (ph & ? & ?).
          exists ph. split; [by right|done]. }
    (* the download fails *)
    assert (w1 = {| net := (http_get (net w) (tuple_photo_url photo)).2;
                    traffic := traffic w
                               ++ [(GET (tuple_photo_url photo), resp)];
                    fs := fs w;
                    logging := logging w
                      ++ [LogWarning (tuple_photo_url photo)
                                     (status_code resp) (text resp)] |})
      as Hw.
    { subst w1. rewrite bool_decide_eq_false_2 by done.
      by rewrite bool_decide_eq_false_2. }
    rewrite Hw in Ht, Hl. simpl in Ht, Hl.
    exists ((GET (tuple_photo_url photo), resp) :: new),
           (LogWarning (tuple_photo_url photo) (status_code resp) (text resp)
            :: new_log).
    split; [by rewrite Ht, <- app_assoc|].
    split; [by rewrite Hl, <- app_assoc|]. split; [done|]. split.
    + intros ph [-> | Hin]%elem_of_cons.
      * right. exists resp. split; [by left|]. split; [done|by left].
      * destruct (Ha ph Hin) as [?|(r & ? & ? & ?)]; [by left|].
        right. exists r. split; [by right|]. split; [done|by right].
    + intros req r [[= -> ->] | Hin]%elem_of_cons.
      * exists photo. split; [by left|]. split; [done|].
        split; [done|]. intros _. by left.
      * destruct (Hb req r Hin) as (ph & ? & ? & ? & Hwarn).
        exists ph. split; [by right|]. split; [done|]. split; [done|].
        intros Hne. right. by apply Hwarn.
Qed.

(** Before the loop: the target directory is created when absent. *)
Lemma download_photos_eq photos target w :
  download_photos photos target w
  = for_each (download_step target) photos tt
      (if bool_decide (is_Some (fs w !! target)) then w
       else {| net := net w; traffic := traffic w;
               fs := <[target := Dir]> (fs w);
               logging := logging w
                          ++ [LogInfo (lit "Creating " ++ target)] |}).
Proof.
  unfold download_photos, bindM, os_path_exists. simpl.
  by destruct (bool_decide (is_Some (fs w !! target))).
Qed.

Lemma download_photos_spec photos target w :
  exists w',
    download_photos photos target w = (Ok tt, w') /\
    download_post target photos w w' /\
    is_Some (fs w' !! target).
Proof.
  rewrite download_photos_eq.
  set (w0 := if bool_decide (is_Some (fs w !! target)) then w else _).
  destruct (download_loop_spec target photos w0)
    as (w' & Hrun & new & new_log & Ht & Hl & Hkeep & Ha & Hb).
  exists w'. split; [done|].
  destruct (decide (is_Some (fs w !! target))) as [Hpres|Habs].
  - assert (w0 = w) as Hw by (subst w0; by rewrite bool_decide_eq_true_2).
    rewrite Hw in *. split; [by exists new, new_log|].
    by rewrite Hkeep.
  - assert (w0 = {| net := net w; traffic := traffic w;
                    fs := <[target := Dir]> (fs w);
                    logging := logging w
                               ++ [LogInfo (lit "Creating " ++ target)] |})
      as Hw by (subst w0; by rewrite bool_decide_eq_false_2).
    rewrite Hw in Ht, Hl, Hkeep. simpl in Ht, Hl, Hkeep.
    assert (Hdir : fs w' !! target = Some Dir).
    { rewrite Hkeep; by rewrite lookup_insert_eq. }
    split; [|by rewrite Hdir].
    exists new, (LogInfo (lit "Creating " ++ target) :: new_log).
    split; [done|]. split; [by rewrite Hl, <- app_assoc|]. split.
    { intros p Hp. rewrite Hkeep.
      - apply lookup_insert_ne. intros <-. done.
      - rewrite lookup_insert_ne; [done|]. intros <-. done. }
    split.
    + intros ph Hin. destruct (Ha ph Hin) as [?|(r & ? & ? & ?)]; [by left|].
      right. exists r. split; [done|]. split; [done|by right].
    + intros req r Hin. destruct (Hb req r Hin) as (ph & ? & ? & ? & Hwarn).
      exists ph. split; [done|]. split; [done|]. split; [done|].
      intros Hne. right. by apply Hwarn.
Qed.

Lemma download_loop_present target photos w :
  (forall photo, photo ∈ photos ->
     is_Some (fs w !! path_join target (tuple_file_name photo))) ->
  for_each (download_step target) photos tt w = (Ok tt, w).
Proof.
  induction photos as [|photo photos IH]; intros H; simpl; [done|].
  unfold bindM. rewrite download_step_spec.
  rewrite bool_decide_eq_true_2 by (apply H; by left).
  apply IH. intros ph Hin. apply H. by right.
Qed.

(** A photo that has no file when the loop starts is asked for: a request
    is sent for a row of the frame with its path. *)
Lemma download_loop_retry target photos photo w w' :
  for_each (download_step target) photos tt w = (Ok tt, w') ->
  photo ∈ photos ->
  fs w !! path_join target (tuple_file_name photo) = None ->
  exists new photo' resp,
    traffic w' = traffic w ++ new /\
    photo' ∈ photos /\
    path_join target (tuple_file_name photo')
    = path_join target (tuple_file_name photo) /\
    (GET (tuple_photo_url photo'), resp) ∈ new.
Proof.
  revert w; induction photos as [|x photos IH]; intros w Hrun Hin Habs.
  - by apply elem_of_nil in Hin.
  - simpl in Hrun. unfold bindM in Hrun.
    pose proof (download_step_spec target x tt w) as Hs. cbv zeta in Hs.
    rewrite Hs in Hrun. clear Hs.
    set (resp0 := (http_get (net w) (tuple_photo_url x)).1) in *.
    case_bool_decide as Hpres.
    { (* the file of [x] is there: [photo] is another row *)
      apply elem_of_cons in Hin as [->|Hin].
      { rewrite Habs in Hpres. by destruct Hpres. }
      destruct (IH w Hrun Hin Habs) as (new & ph & resp & Ht & ? & ? & ?).
      exists new, ph, resp. split; [done|]. split; [by right|done]. }
    match type of Hrun with
    | for_each _ _ _ ?st = _ => set (step := st) in *
    end.
    assert (Hstep : traffic step
                    = traffic w ++ [(GET (tuple_photo_url x), resp0)]).
    { subst step. by case_bool_decide. }
    assert (Hkeep : path_join target (tuple_file_name x)
                    <> path_join target (tuple_file_name photo) ->
                    fs step !! path_join target (tuple_file_name photo) = None).
    { intros Hne. subst step. case_bool_decide; simpl; [|done].
      by rewrite lookup_insert_ne. }
    destruct (download_loop_spec target photos step)
      as (w'' & Hrun' & rest & _ & Hrest & _).
    rewrite Hrun' in Hrun. injection Hrun as ->.
    destruct (decide (path_join target (tuple_file_name x)
                      = path_join target (tuple_file_name photo)))
      as [Heq|Hne].
    + exists ((GET (tuple_photo_url x), resp0) :: rest), x, resp0.
      split; [by rewrite Hrest, Hstep, <- app_assoc|].
      split; [by left|]. split; [done|by left].
    + apply elem_of_cons in Hin as [->|Hin]; [done|].
      destruct (IH step Hrun' Hin (Hkeep Hne))
        as (new & ph & resp & Ht' & ? & ? & ?).
      exists ((GET (tuple_photo_url x), resp0) :: new), ph, resp.
      split; [by rewrite Ht', Hstep, <- app_assoc|].
      split; [by right|]. split; [done|by right].
Qed.

(** *** C8: a failed download does not end the batch *)

(** C8. [download_photos] never raises.  A download answered with a
    status other than 200 logs a warning, writes nothing, and the loop
    goes on with the next photo; at the end every photo of the batch has
    its file or has a warning for its failed download, and the content of
    every download answered with 200 is in the photo's file. *)
Theorem download_photos_best_effort
        (photos : list photo_tuple) (target : str) (w : world Net) :
  (forall before photo after w1,
      for_each (download_step target) before tt w = (Ok tt, w1) ->
      fs w1 !! path_join target (tuple_file_name photo) = None ->
      let resp := (http_get (net w1) (tuple_photo_url photo)).1 in
      status_code resp <> 200%Z ->
      for_each (download_step target) (before ++ photo :: after) tt w
      = for_each (download_step target) after tt
          {| net := (http_get (net w1) (tuple_photo_url photo)).2;
             traffic := traffic w1 ++ [(GET (tuple_photo_url photo), resp)];
             fs := fs w1;
             logging := logging w1
                        ++ [LogWarning (tuple_photo_url photo)
                                       (status_code resp) (text resp)] |}) /\
  exists w',
    download_photos photos target w = (Ok tt, w') /\
    download_post target photos w w'.
Proof.
  split.
  - intros before photo after w1 Hrun Habs resp Hfail.
    rewrite for_each_app. unfold bindM at 1. rewrite Hrun. simpl.
    unfold bindM. rewrite download_step_spec.
    rewrite bool_decide_eq_false_2 by (rewrite Habs; by intros [? ?]).
    by rewrite bool_decide_eq_false_2.
  - destruct (download_photos_spec photos target w) as (w' & ? & ? & _).
    by exists w'.
Qed.

(** *** C5: running the photo cache twice *)

(** C5, as the code has it.  A photo whose file exists is skipped: no
    request is sent and nothing changes.  After a run in which every
    download was answered with 200, every photo of the batch has its
    file, so that a second run on the same photos and directory sends no
    request and changes nothing: it ends in the state the first run left.
    A photo that has no file after the first run is not skipped: the
    second run sends a request for a row of the frame with its path. *)
Theorem download_photos_idempotent
        (photos : list photo_tuple) (target : str) (w w1 : world Net) :
  download_photos photos target w = (Ok tt, w1) ->
  (forall photo u w0,
      is_Some (fs w0 !! path_join target (tuple_file_name photo)) ->
      download_step target photo u w0 = (Ok tt, w0)) /\
  (Forall (fun x : request * response => status_code x.2 = 200%Z)
          (drop (length (traffic w)) (traffic w1)) ->
   (forall photo, photo ∈ photos ->
       is_Some (fs w1 !! path_join target (tuple_file_name photo))) /\
   download_photos photos target w1 = (Ok tt, w1)) /\
  (forall photo,
      photo ∈ photos ->
      fs w1 !! path_join target (tuple_file_name photo) = None ->
      exists w2 new photo' resp,
        download_photos photos target w1 = (Ok tt, w2) /\
        traffic w2 = traffic w1 ++ new /\
        photo' ∈ photos /\
        path_join target (tuple_file_name photo')
        = path_join target (tuple_file_name photo) /\
        (GET (tuple_photo_url photo'), resp) ∈ new).
Proof.
  intros Hrun.
  destruct (download_photos_spec photos target w)
    as (w' & Hrun' & (new & new_log & Ht & _ & _ & Ha & _) & Hdir).
  assert (w' = w1) as -> by congruence.
  split; [|split].
  - intros photo u w0 Hpres. rewrite download_step_spec.
    by rewrite bool_decide_eq_true_2.
  - intros Hall.
    rewrite Ht, drop_app_length in Hall. rewrite Forall_forall in Hall.
    assert (Hfiles : forall photo, photo ∈ photos ->
              is_Some (fs w1 !! path_join target (tuple_file_name photo))).
    { intros photo Hin. destruct (Ha photo Hin) as [?|(r & Hr & Hne & _)];
        [done|]. by apply Hall in Hr. }
    split; [exact Hfiles|].
    rewrite download_photos_eq. rewrite bool_decide_eq_true_2 by done.
    by apply download_loop_present.
  - intros photo Hin Habs.
    destruct (download_photos_spec photos target w1) as (w2 & Hrun2 & _).
    pose proof Hrun2 as Hloop. rewrite download_photos_eq in Hloop.
    rewrite bool_decide_eq_true_2 in Hloop by done.
    destruct (download_loop_retry target photos photo w1 w2 Hloop Hin Habs)
      as (new2 & ph & resp & ? & ? & ? & ?).
    by exists w2, new2, ph, resp.
Qed.

(** ** Further properties of the harvest *)

Ltac bind_step H x Hx := apply bind_Ok in H as (x & Hx & H).

Lemma photo_records_urls b photos ps :
  Forall2 (fun photo p => photo_record b photo = Ok p) photos ps ->
  photo_url <$> ps = photos.
Proof.
  induction 1 as [|photo p photos ps Hp _ IH]; [done|].
  apply photo_record_key in Hp as (alias & url & _ & -> & _ & Hu & _).
  rewrite fmap_cons. by rewrite IH, Hu.
Qed.

(** X2. In a business row that was built, the four location cells are
    [None] when the entry has no [location], and the two coordinate cells
    are [None] when it has no [coordinates]; a [location] or [coordinates]
    field that is present is an object (for any other value, [null]
    included, no row is built), and each cell is the field of that name in
    it, or [None]. *)
Theorem nested_fields_default (items : list (str * json)) (row : business_row) :
  business_record (JDict items) = Ok row ->
  nested_field (assoc (lit "location") items) "city" (business_city row) /\
  nested_field (assoc (lit "location") items) "state" (business_state row) /\
  nested_field (assoc (lit "location") items) "postal_code"
        (business_postal_code row) /\
  nested_field (assoc (lit "location") items) "country" (business_country row) /\
  nested_field (assoc (lit "coordinates") items) "latitude"
        (business_latitude row) /\
  nested_field (assoc (lit "coordinates") items) "longitude"
        (business_longitude row).
Proof.
  assert (Hget : forall o k cell,
             dict_get (match o with Some v => v | None => JDict [] end)
                      (lit k) JNone = Ok cell ->
             nested_field o k cell).
  { intros [v|] k cell H.
    - destruct v; try done. injection H as <-. simpl. eauto.
    - by injection H as <-. }
  unfold business_record. rewrite !dict_get_JDict. intros H.
  repeat match type of H with
         | bind (Ok _) _ = _ => rewrite bind_Ok_l in H
         end.
  bind_step H price Hprice.
  rewrite bind_Ok_l in H. bind_step H city Hcity.
  rewrite bind_Ok_l in H. bind_step H state Hstate.
  rewrite bind_Ok_l in H. bind_step H postal Hpostal.
  rewrite bind_Ok_l in H. bind_step H country Hcountry.
  rewrite bind_Ok_l in H. bind_step H lat Hlat.
  rewrite bind_Ok_l in H. bind_step H lon Hlon.
  bind_step H cs Hcs. bind_step H pa Hpa. bind_step H pc Hpc.
  injection H as <-. simpl.
  repeat split; by apply Hget.
Qed.

(** X3. An entry without a string alias (the field is missing, null or of
    another type) that has at least one photo makes the loop raise
    [TypeError], whatever the photos are: the alias is concatenated before
    the photo is looked at.  No table is returned. *)
Theorem photos_need_alias
        (items : list (str * json)) (row : business_row)
        (photo : json) (photos : list json) (acc : tables) :
  (forall a, assoc (lit "alias") items <> Some (JStr a)) ->
  business_record (JDict items) = Ok row ->
  photos_of (JDict items) = Ok (photo :: photos) ->
  photo_record (JDict items) photo = Raise TypeError /\
  business_step (JDict items) acc = Raise TypeError.
Proof.
  intros Ha Hrow Hp.
  assert (Hrec : photo_record (JDict items) photo = Raise TypeError).
  { unfold photo_record. rewrite !dict_get_JDict. simpl.
    destruct (assoc (lit "alias") items) as [[| | | |a| |]|]; try done.
    by destruct (Ha a). }
  split; [exact Hrec|].
  rewrite business_step_normalize. unfold normalize_business.
  rewrite Hrow, Hp. simpl. by rewrite Hrec.
Qed.

(** X7. A response with status 200 whose payload is not a JSON object never
    yields a page: testing it for ["errors"], reading [data['errors']] or
    calling [get] on it raises [TypeError] or [AttributeError]. *)
Theorem non_object_payload_raises (resp : response) (data : json) :
  status_code resp = 200%Z ->
  json_body resp = Ok data ->
  (forall items, data <> JDict items) ->
  (page_entries resp = Raise TypeError
   \/ page_entries resp = Raise AttributeError) /\
  (page_of resp = Raise TypeError \/ page_of resp = Raise AttributeError).
Proof.
  intros Hs Hj Hd. unfold page_of, normalize_page, page_entries.
  assert (H : (check_response resp = Raise TypeError)
              \/ (check_response resp = Ok data
                  /\ page_businesses data = Raise AttributeError)).
  { unfold check_response. rewrite Hs, Hj. simpl.
    destruct data as [|b|z|f|s|l|items]; simpl; auto.
    - destruct (is_substring (lit "errors") s); simpl; auto.
    - destruct (existsb _ l); simpl; auto.
    - by destruct (Hd items). }
  destruct H as [-> | [-> Hb]]; simpl; [auto|]. rewrite Hb. simpl. auto.
Qed.

(** *** The business table of a run *)

Lemma groups_business_rows entries groups :
  Forall2 (fun b g => normalize_business b = Ok g) entries groups ->
  Forall2 (fun b row => business_record b = Ok row) entries
          (tables_concat groups).1.1.
Proof.
  induction 1 as [|b g entries groups Hg _ IH]; [constructor|].
  apply normalize_business_rows in Hg as (row & _ & _ & Hrow & Hb & _).
  rewrite tables_concat_cons. unfold tables_app. simpl. rewrite Hb.
  by constructor.
Qed.

Lemma pages_entries resps pages :
  Forall2 (fun resp pg => page_of resp = Ok pg) resps pages ->
  exists lists,
    Forall2 (fun resp l => page_entries resp = Ok l) resps lists /\
    Forall2 (fun b row => business_record b = Ok row) (concat lists)
            (tables_concat pages).1.1.
Proof.
  induction 1 as [|resp pg resps pages Hpg _ (lists & HF & Hrows)].
  - exists []. split; constructor.
  - apply page_of_groups in Hpg as (data & l & groups & Hd & Hl & Hg & ->).
    exists (l :: lists). split.
    + constructor; [|done]. unfold page_entries. by rewrite Hd.
    + rewrite tables_concat_cons. unfold tables_app. simpl.
      apply Forall2_app; [|done]. by apply groups_business_rows.
Qed.

(** X4. The business table a run returns holds one row per business entry
    of the pages received, in the order of the pages and of the entries in
    each page: an entry that comes back on several pages has as many rows;
    nothing removes a repeated alias. *)
Theorem businesses_are_the_entries
        (locations : list str) (category : str) (w w' : world Net)
        (bs : list business_row) (rs : list review_row)
        (ps : list photo_row) :
  get_yelp_data locations category w = (Ok (bs, rs, ps), w') ->
  exists lists,
    mapM page_entries (responses_since w w') = Ok lists /\
    mapM business_record (concat lists) = Ok bs /\
    length bs = length (concat lists).
Proof.
  rewrite get_yelp_data_plan. intros H.
  apply run_trace in H as (resps & Ht & _ & _ & _ & Hlen & pages & HF & Hacc).
  rewrite tables_app_nil_l in Hacc.
  assert (responses_since w w' = resps) as ->.
  { unfold responses_since. rewrite Ht, drop_app_length.
    apply snd_zip. rewrite length_fmap. lia. }
  destruct (pages_entries _ _ HF) as (lists & Hl & Hrows).
  assert (bs = (tables_concat pages).1.1) as Hbs by by rewrite <- Hacc.
  rewrite <- Hbs in Hrows. exists lists. split; [by apply mapM_Ok_Forall2|].
  split; [by apply mapM_Ok_Forall2|].
  symmetry. by eapply Forall2_length.
Qed.

(** *** The photo and review tables of a run *)

Lemma photo_records_strings b photos ps :
  Forall2 (fun photo p => photo_record b photo = Ok p) photos ps ->
  Forall (fun p => exists alias url,
              photo_business_alias p = JStr alias /\ photo_url p = JStr url)
         ps.
Proof.
  induction 1 as [|photo p photos ps Hp _ IH]; constructor; [|done].
  apply photo_record_key in Hp as (alias & url & _ & _ & ? & ? & _).
  by exists alias, url.
Qed.

Lemma groups_photos_reviews entries groups :
  Forall2 (fun b g => normalize_business b = Ok g) entries groups ->
  exists photos reviews,
    Forall2 (fun b l => photos_of b = Ok l) entries photos /\
    photo_url <$> (tables_concat groups).2 = concat photos /\
    Forall (fun p => exists alias url,
                photo_business_alias p = JStr alias /\ photo_url p = JStr url)
           (tables_concat groups).2 /\
    Forall2 (fun b l => reviews_of b = Ok l) entries reviews /\
    length (tables_concat groups).1.2 = length (concat reviews).
Proof.
  induction 1 as [|b g entries groups Hg _
                     (photos & reviews & Hp & Hu & Hs & Hr & Hn)].
  - exists [], []. repeat split; constructor.
  - apply normalize_business_rows in Hg
      as (row & pl & rl & _ & _ & Hpl & Hps & Hrl & Hrs).
    exists (pl :: photos), (rl :: reviews).
    rewrite tables_concat_cons. unfold tables_app. cbn [fst snd concat].
    split; [by constructor|]. split.
    { by rewrite fmap_app, Hu, (photo_records_urls b pl g.2). }
    split.
    { apply Forall_app. split; [|done]. by apply (photo_records_strings b pl). }
    split; [by constructor|].
    rewrite !length_app, Hn. f_equal. symmetry. by eapply Forall2_length.
Qed.

Lemma pages_photos_reviews resps pages :
  Forall2 (fun resp pg => page_of resp = Ok pg) resps pages ->
  exists lists photos reviews,
    Forall2 (fun resp l => page_entries resp = Ok l) resps lists /\
    Forall2 (fun b l => photos_of b = Ok l) (concat lists) photos /\
    photo_url <$> (tables_concat pages).2 = concat photos /\
    Forall (fun p => exists alias url,
                photo_business_alias p = JStr alias /\ photo_url p = JStr url)
           (tables_concat pages).2 /\
    Forall2 (fun b l => reviews_of b = Ok l) (concat lists) reviews /\
    length (tables_concat pages).1.2 = length (concat reviews).
Proof.
  induction 1 as [|resp pg resps pages Hpg _
                     (lists & photos & reviews & HF & Hp & Hu & Hs & Hr & Hn)].
  - exists [], [], []. repeat split; constructor.
  - apply page_of_groups in Hpg as (data & l & groups & Hd & Hl & Hg & ->).
    apply groups_photos_reviews in Hg
      as (photos0 & reviews0 & Hp0 & Hu0 & Hs0 & Hr0 & Hn0).
    exists (l :: lists), (photos0 ++ photos), (reviews0 ++ reviews).
    rewrite tables_concat_cons. unfold tables_app. cbn [fst snd concat].
    split.
    { constructor; [|done]. unfold page_entries. by rewrite Hd. }
    split; [by apply Forall2_app|]. split.
    { by rewrite fmap_app, concat_app, Hu0, Hu. }
    split; [apply Forall_app; by split|].
    split; [by apply Forall2_app|].
    by rewrite length_app, concat_app, length_app, Hn0, Hn.
Qed.

(** X1. The photo table a run returns has one row per photo of the business
    entries received, in the order of the pages, of the entries of a page
    and of the photos of an entry: its URL column lists those photos.  The
    alias and the URL of every row are strings, which the table holds as
    they are.  The review table has one row per review of those entries. *)
Theorem photos_and_reviews_are_the_entries
        (locations : list str) (category : str) (w w' : world Net)
        (bs : list business_row) (rs : list review_row)
        (ps : list photo_row) :
  get_yelp_data locations category w = (Ok (bs, rs, ps), w') ->
  exists lists photos reviews,
    mapM page_entries (responses_since w w') = Ok lists /\
    mapM photos_of (concat lists) = Ok photos /\
    photo_url <$> ps = concat photos /\
    Forall (fun p => exists alias url,
                photo_business_alias p = JStr alias /\ photo_url p = JStr url)
           ps /\
    mapM reviews_of (concat lists) = Ok reviews /\
    length rs = length (concat reviews).
Proof.
  rewrite get_yelp_data_plan. intros H.
  apply run_trace in H as (resps & Ht & _ & _ & _ & Hlen & pages & HF & Hacc).
  rewrite tables_app_nil_l in Hacc.
  assert (responses_since w w' = resps) as ->.
  { unfold responses_since. rewrite Ht, drop_app_length.
    apply snd_zip. rewrite length_fmap. lia. }
  destruct (pages_photos_reviews _ _ HF)
    as (lists & photos & reviews & Hl & Hp & Hu & Hs & Hr & Hn).
  assert (ps = (tables_concat pages).2) as Hps by by rewrite <- Hacc.
  assert (rs = (tables_concat pages).1.2) as Hrs by by rewrite <- Hacc.
  rewrite <- Hps in Hu, Hs. rewrite <- Hrs in Hn.
  exists lists, photos, reviews.
  split; [by apply mapM_Ok_Forall2|]. split; [by apply mapM_Ok_Forall2|].
  split; [done|]. split; [done|]. split; [by apply mapM_Ok_Forall2|done].
Qed.

(** *** The shape of a file name *)

Lemma land_255_lt (w : N) : (N.land w 255 < 256)%N.
Proof.
  change 255%N with (N.ones 8). rewrite N.land_ones.
  by apply N.mod_lt.
Qed.

Lemma word_bytes_bytes (w : N) :
  length (MD5.word_bytes w) = 4 /\ Forall (fun x => (x < 256)%N) (MD5.word_bytes w).
Proof.
  split; [done|]. unfold MD5.word_bytes.
  repeat constructor; apply land_255_lt.
Qed.

Lemma digest_bytes (msg : bytes) :
  length (MD5.digest msg) = 16 /\ Forall (fun x => (x < 256)%N) (MD5.digest msg).
Proof.
  unfold MD5.digest.
  destruct (MD5.blocks _ _ _) as [[[a b] c] d].
  split.
  - rewrite !length_app. by rewrite !(proj1 (word_bytes_bytes _)).
  - rewrite !Forall_app. repeat split; apply word_bytes_bytes.
Qed.

Lemma hex_digit_is_hex (n : N) : (n < 16)%N -> is_hex (MD5.hex_digit n).
Proof.
  intros H. unfold MD5.hex_digit, is_hex.
  destruct (n <? 10)%N eqn:E.
  - apply N.ltb_lt in E. lia.
  - apply N.ltb_ge in E. lia.
Qed.

Lemma hex_shape (b : bytes) :
  Forall (fun x => (x < 256)%N) b ->
  length (MD5.hex b) = 2 * length b /\ Forall is_hex (MD5.hex b).
Proof.
  induction 1 as [|x b Hx _ [IHl IHf]]; [by split|].
  unfold MD5.hex in *. simpl. split; [lia|].
  constructor; [|constructor; [|done]]; apply hex_digit_is_hex.
  - rewrite N.shiftr_div_pow2. change (2 ^ 4)%N with 16%N.
    apply N.Div0.div_lt_upper_bound. lia.
  - change 15%N with (N.ones 4). rewrite N.land_ones. by apply N.mod_lt.
Qed.

Lemma hexdigest_shape (msg : bytes) :
  length (MD5.hexdigest msg) = 32 /\ Forall is_hex (MD5.hexdigest msg).
Proof.
  destruct (digest_bytes msg) as [Hl Hb].
  destruct (hex_shape _ Hb) as [Hl' Hh].
  unfold MD5.hexdigest. split; [lia|done].
Qed.

(** X5. The file name of a photo record is the alias, an underscore, 32
    lower-case hexadecimal digits and ".jpg": whatever the URL holds, the
    name adds no path separator to those of the alias.  Two photo records,
    of the same business or not, have the same file name only if they have
    the same alias and the same digest. *)
Theorem file_name_shape
        (b1 photo1 b2 photo2 : json) (p1 p2 : photo_row) :
  photo_record b1 photo1 = Ok p1 ->
  photo_record b2 photo2 = Ok p2 ->
  exists alias1 h1 alias2 h2,
    photo_business_alias p1 = JStr alias1 /\
    photo_business_alias p2 = JStr alias2 /\
    file_name p1 = alias1 ++ lit "_" ++ h1 ++ lit ".jpg" /\
    file_name p2 = alias2 ++ lit "_" ++ h2 ++ lit ".jpg" /\
    length h1 = 32 /\ Forall is_hex h1 /\
    length (file_name p1) = length alias1 + 37 /\
    (file_name p1 = file_name p2 -> alias1 = alias2 /\ h1 = h2).
Proof.
  intros H1 H2.
  apply photo_record_key in H1 as (a1 & u1 & _ & _ & Ha1 & _ & Hk1).
  apply photo_record_key in H2 as (a2 & u2 & _ & _ & Ha2 & _ & Hk2).
  unfold cache_key in Hk1, Hk2.
  destruct (encode_utf8 u1) as [e1|]; [|done].
  destruct (encode_utf8 u2) as [e2|]; [|done].
  assert (Hf1 : a1 ++ lit "_" ++ MD5.hexdigest e1 ++ lit ".jpg" = file_name p1) by congruence.
  assert (Hf2 : a2 ++ lit "_" ++ MD5.hexdigest e2 ++ lit ".jpg" = file_name p2) by congruence.
  clear Hk1 Hk2. rename Hf1 into Hk1, Hf2 into Hk2.
  destruct (hexdigest_shape e1) as [Hl1 Hh1].
  destruct (hexdigest_shape e2) as [Hl2 Hh2].
  exists a1, (MD5.hexdigest e1), a2, (MD5.hexdigest e2).
  do 6 (split; [done|]). split.
  - rewrite <- Hk1, !length_app, Hl1. simpl. lia.
  - intros Heq. rewrite <- Hk1, <- Hk2 in Heq.
    assert (a1 = a2) as ->.
    { apply app_inj_1 in Heq as [Ha _]; [done|].
      apply (f_equal length) in Heq. rewrite !length_app, Hl1, Hl2 in Heq.
      simpl in Heq. lia. }
    split; [done|].
    apply (app_inv_head a2) in Heq. apply (app_inv_head (lit "_")) in Heq.
    by apply (app_inv_tail (lit ".jpg")) in Heq.
Qed.

(** *** Categories without alias *)


Lemma alone_in_set_JNone : alone_in_set JNone.
Proof. intros [|b|z|[neg m e|neg|]|t|l|items]; simpl; try done. Qed.

Lemma alone_in_set_JStr s : alone_in_set (JStr s).
Proof. intros y. apply py_eqb_JStr. Qed.

Lemma set_add_alone v s s' x :
  alone_in_set x ->
  set_add v s = Ok s' ->
  x ∈ s' <-> x ∈ s \/ x = v.
Proof.
  intros Hx. unfold set_add. destruct (hashable v); [|done].
  destruct (existsb (py_eqb v) s) eqn:Hex; intros [= <-].
  - split; [auto|]. intros [H | ->]; [done|].
    apply existsb_exists in Hex as (y & Hy & Heq).
    apply Hx in Heq as ->. by apply list_elem_of_In.
  - rewrite elem_of_app, list_elem_of_singleton. done.
Qed.

Lemma set_comprehension_alone {A} (f : A -> result json) l s0 s x :
  alone_in_set x ->
  foldM (fun y s => a <- f y ;; set_add a s) l s0 = Ok s ->
  x ∈ s <-> x ∈ s0 \/ exists y, y ∈ l /\ f y = Ok x.
Proof.
  intros Hx. revert s0; induction l as [|y l IH]; simpl; intros s0 H.
  - injection H as <-. split; [auto|].
    intros [H | (y & Hy%elem_of_nil & _)]; done.
  - bind_step H s1 E. bind_step E v Ev.
    rewrite (IH _ H), (set_add_alone _ _ _ _ Hx E). split.
    + intros [[H1 | ->] | (z & Hz & Hfz)]; [auto| |].
      * right. exists y. split; [left|done].
      * right. exists z. split; [by right|done].
    + intros [H1 | (z & [-> | Hz]%elem_of_cons & Hfz)]; [auto| |].
      * left. right. congruence.
      * right. eauto.
Qed.

Section MissingAlias.

Hypothesis set_iter_perm : forall s, set_iter s ≡ₚ s.

(** X6. A category without alias, or with a null alias, puts [None] in the
    categories cell, and nothing else does: [None] is in the cell exactly
    when one of the entry's categories has its alias missing or null; like
    any value of the cell it is there once.  The same holds for
    the parent categories cell. *)
Theorem missing_alias_is_None (business : json) (row : business_row) :
  business_record business = Ok row ->
  exists cats,
    categories_of business = Ok cats /\
    (JNone ∈ business_categories row <->
     exists cat, cat ∈ cats /\ dict_get cat (lit "alias") JNone = Ok JNone) /\
    (JNone ∈ business_parent_categories row <->
     exists cat parent_cats parent_cat,
       cat ∈ cats /\ parent_categories_of cat = Ok parent_cats /\
       parent_cat ∈ parent_cats /\
       dict_get parent_cat (lit "alias") JNone = Ok JNone) /\
    NoDup (business_categories row) /\
    NoDup (business_parent_categories row).
Proof.
  intros H. unfold business_record in H.
  do 16 (let x := fresh "x" in let Hx := fresh "Hx" in bind_step H x Hx).
  bind_step H cset Hcs. bind_step H parents Hpa. bind_step H pset Hps.
  injection H as <-. simpl in *.
  unfold category_set in Hcs. bind_step Hcs cats Hcats.
  destruct (set_comprehension_spec _ _ _ _ Hcs NoDup_nil_2) as [Hnd1 _].
  destruct (set_of_list_spec _ _ Hps) as [Hnd2 _].
  exists cats. split; [done|].
  split; [|split; [|by rewrite !set_iter_perm]].
  - rewrite set_iter_perm.
    rewrite (set_comprehension_alone _ _ _ _ _ alone_in_set_JNone Hcs).
    split; [|auto]. intros [H%elem_of_nil | H]; done.
  - rewrite set_iter_perm.
    rewrite (set_comprehension_alone Ok _ _ _ _ alone_in_set_JNone Hps).
    split.
    + intros [H%elem_of_nil | (y & Hy & [= ->])]; [done|].
      apply (parent_aliases_elem_of _ _ _ Hpa) in Hy
        as (cats' & cat & pcs & pc & Hc & ?).
      exists cat, pcs, pc. by replace cats with cats' by congruence.
    + intros (cat & pcs & pc & ?). right. exists JNone. split; [|done].
      apply (parent_aliases_elem_of _ _ _ Hpa).
      by exists cats, cat, pcs, pc.
Qed.

End MissingAlias.

(** *** What a batch of downloads costs *)

Lemma files_insert_file (m : gmap str entry) p data :
  m !! p = None ->
  size (files (<[p := File data]> m)) = S (size (files m)).
Proof.
  intros Hp. unfold files. rewrite map_filter_insert_True by done.
  apply map_size_insert_None. apply map_lookup_filter_None. by left.
Qed.

Lemma files_insert_dir (m : gmap str entry) p :
  m !! p = None -> files (<[p := Dir]> m) = files m.
Proof.
  intros Hp. unfold files.
  rewrite map_filter_insert_False by (by intros []).
  by rewrite delete_id.
Qed.

Lemma download_loop_count target photos w w' :
  for_each (download_step target) photos tt w = (Ok tt, w') ->
  exists asked new,
    traffic w' = traffic w ++ new /\
    asked `sublist_of` photos /\
    new.*1 = (fun photo => GET (tuple_photo_url photo)) <$> asked /\
    size (files (fs w'))
    = size (files (fs w)) + length (filter answered_200 new).
Proof.
  revert w; induction photos as [|photo photos IH]; intros w; simpl.
  - intros [= <-]. exists [], []. rewrite app_nil_r. simpl.
    repeat split; [done|lia].
  - unfold bindM. rewrite download_step_spec.
    set (path := path_join target (tuple_file_name photo)).
    set (resp := (http_get (net w) (tuple_photo_url photo)).1).
    intros H. apply IH in H as (asked & new & Ht & Hsub & Hget & Hsize).
    case_bool_decide as Hpres.
    { exists asked, new. repeat split; [done|by apply sublist_cons|done|done]. }
    assert (Habs : fs w !! path = None).
    { destruct (fs w !! path) eqn:E; [|done]. destruct Hpres. eauto. }
    exists (photo :: asked), ((GET (tuple_photo_url photo), resp) :: new).
    case_bool_decide as Hok; simpl in Ht, Hsize;
      (split; [by rewrite Ht, <- app_assoc|]);
      (split; [by apply sublist_skip|]);
      (split; [by rewrite !fmap_cons, Hget|]).
    + rewrite filter_cons_True by done. simpl.
      rewrite Hsize, files_insert_file by done. lia.
    + rewrite filter_cons_False by done. lia.
Qed.

(** X8. A run of [download_photos] sends GET requests only: those for the
    photo URLs of some of the rows of the frame, in the order of the frame
    and one per row asked for.  It changes no entry of the file system that
    was there, and it adds one file per download answered with 200. *)
Theorem download_photos_counts
        (photos : list photo_tuple) (target : str) (w w' : world Net) :
  download_photos photos target w = (Ok tt, w') ->
  exists asked new,
    traffic w' = traffic w ++ new /\
    asked `sublist_of` photos /\
    new.*1 = (fun photo => GET (tuple_photo_url photo)) <$> asked /\
    (forall p, is_Some (fs w !! p) -> fs w' !! p = fs w !! p) /\
    size (files (fs w'))
    = size (files (fs w)) + length (filter answered_200 new).
Proof.
  intros H.
  destruct (download_photos_spec photos target w)
    as (w'' & Hrun & (_ & _ & _ & _ & Hkeep & _) & _).
  rewrite H in Hrun. injection Hrun as <-.
  rewrite download_photos_eq in H.
  apply download_loop_count in H as (asked & new & Ht & Hsub & Hget & Hsize).
  exists asked, new. revert Ht Hsize. case_bool_decide as Hpres; simpl.
  - intros Ht Hsize. by repeat split.
  - intros Ht Hsize. repeat split; try done.
    rewrite Hsize, files_insert_dir; [done|].
    destruct (fs w !! target) eqn:E; [|done]. destruct Hpres. eauto.
Qed.

(** *** The offset in the query text *)

Lemma digits_fuel_value (fuel : nat) (n : N) (acc : str) :
  (n < 2 ^ N.of_nat fuel)%N ->
  fold_left (fun n c => (10 * n + (c - 48))%N) (digits_fuel fuel n acc) 0%N
  = fold_left (fun n c => (10 * n + (c - 48))%N) acc n.
Proof.
  revert n acc; induction fuel as [|fuel IH]; intros n acc Hn.
  - simpl in *. by replace n with 0%N by lia.
  - rewrite Nat2N.inj_succ, N.pow_succ_r' in Hn.
    cbn [digits_fuel]. destruct (n <? 10)%N eqn:E.
    + apply N.ltb_lt in E. cbn [fold_left]. rewrite N.mod_small by done.
      f_equal. lia.
    + apply N.ltb_ge in E. rewrite IH.
      * cbn [fold_left]. f_equal.
        pose proof (N.Div0.div_mod n 10) as Hd.
        set (q := (n `div` 10)%N) in *. set (r := (n `mod` 10)%N) in *.
        clearbody q r. lia.
      * apply N.Div0.div_lt_upper_bound. lia.
Qed.

Lemma N_of_digits_str_of_N (n : N) : N_of_digits (str_of_N n) = n.
Proof.
  unfold N_of_digits, str_of_N. rewrite digits_fuel_value; [done|].
  rewrite Nat2N.inj_succ, N2Nat.id.
  destruct (decide (n = 0%N)) as [-> | Hn]; [done|].
  apply N.log2_spec. lia.
Qed.

Lemma build_query_inj_offset category location (o1 o2 lim : N) :
  build_query category location o1 lim = build_query category location o2 lim ->
  o1 = o2.
Proof.
  unfold build_query. intros H.
  repeat apply app_inv_head in H.
  apply app_inv_tail in H.
  apply (f_equal N_of_digits) in H. by rewrite !N_of_digits_str_of_N in H.
Qed.

(** X13. The decimal text of an offset reads back as the offset, so that
    the query text determines the offset: the four queries posted for one
    location are pairwise different. *)
Theorem queries_of_a_location_differ (category location : str) :
  (forall n, N_of_digits (str_of_N n) = n) /\
  (forall o1 o2 lim,
      build_query category location o1 lim
      = build_query category location o2 lim -> o1 = o2) /\
  NoDup (page_request category <$> plan [location]).
Proof.
  split; [apply N_of_digits_str_of_N|].
  split; [intros o1 o2 lim; apply build_query_inj_offset|].
  unfold plan. cbn [flat_map]. rewrite app_nil_r, <- list_fmap_compose.
  apply NoDup_fmap_2.
  - intros o1 o2 H. apply (build_query_inj_offset category location _ _ limit).
    unfold compose, page_request in H. cbn [fst snd] in H. congruence.
  - rewrite offsets_eq.
    repeat (apply NoDup_cons; split;
            [rewrite ?elem_of_cons, elem_of_nil; lia|]).
    apply NoDup_nil_2.
Qed.

(** ** [main] *)

Lemma main_download_eq w :
  main_download w
  = match get_yelp_data main_locations (lit "restaurants")
                        (main_before_harvest w) with
    | (Raise e, w1) => (Raise e, w1)
    | (Ok t, w1) =>
        match prepare t with
        | Raise e => (Raise e, logged (LogInfo (lit "Data downloaded")) w1)
        | Ok frames =>
            match download_photos (itertuples frames.2)
                                  (path_join DATA_PATH (lit "photos"))
                                  (main_before_photos frames w1) with
            | (Ok _, w3) =>
                (Ok tt, logged (LogInfo (lit "Photos downloaded")) w3)
            | (Raise e, w3) => (Raise e, w3)
            end
        end
    end.
Proof.
  unfold main_download, main_before_harvest, main_before_photos, present_in.
  unfold bindM at 1. unfold os_path_exists at 1.
  destruct (bool_decide (is_Some (fs w !! DATA_PATH))); cbn [negb].
  - unfold bindM at 1. unfold ret at 1. unfold bindM at 1. unfold log at 1.
    unfold bindM at 1. unfold logged at 1. unfold log at 2. cbn [snd].
    destruct (get_yelp_data _ _ _) as [[t|e] w1]; [|done].
    unfold bindM at 1. unfold log at 1. unfold bindM at 1. unfold lift at 1.
    destruct (prepare t) as [frames|e]; [|done].
    reflexivity.
  - unfold bindM at 1. unfold bindM at 1. unfold log at 1.
    unfold os_makedirs at 1. unfold bindM at 1. unfold log at 1.
    unfold bindM at 1.
    destruct (get_yelp_data _ _ _) as [[t|e] w1]; [|done].
    unfold bindM at 1. unfold log at 1. unfold bindM at 1. unfold lift at 1.
    destruct (prepare t) as [frames|e]; [|done].
    reflexivity.
Qed.

Lemma fst_zip_take {A B} (l : list A) (k : list B) :
  length k <= length l -> (zip l k).*1 = take (length k) l.
Proof.
  revert k; induction l as [|x l IH]; intros [|y k] Hlen; simpl in *;
    try done; try lia.
  f_equal. apply IH. lia.
Qed.

(** The harvest touches neither the file system nor the log; it sends POST
    requests only, the first ones of the plan, at most one per page of the
    plan and exactly one when it returns. *)
Lemma harvest_trace locations category w r w' :
  get_yelp_data locations category w = (r, w') ->
  fs w' = fs w /\ logging w' = logging w /\
  exists new,
    traffic w' = traffic w ++ new /\
    Forall is_POST new /\
    length new <= length (plan locations) /\
    (forall t, r = Ok t -> length new = length (plan locations)) /\
    new.*1 = take (length new) (page_request category <$> plan locations).
Proof.
  rewrite get_yelp_data_plan. intros H.
  apply run_trace in H as (resps & Ht & Hlen & Hfs & Hlog & Hr).
  split; [done|]. split; [done|].
  exists (zip (page_request category <$> plan locations) resps).
  split; [done|]. split.
  - apply Forall_forall. intros [req resp] Hin.
    apply elem_of_zip_l in Hin. apply list_elem_of_fmap in Hin as (p & -> & _).
    done.
  - rewrite length_zip_with, length_fmap. split; [lia|]. split.
    + intros t ->. destruct Hr as [Hr _]. lia.
    + rewrite fst_zip_take by (rewrite length_fmap; lia).
      f_equal. lia.
Qed.

(** [os.path.join(a, b)] for a relative [b]: [a], a separator that
    depends on [a] only, then [b]. *)
Lemma path_join_relative (a : str) :
  exists sep : str,
    forall (c : N) (b : str),
      c <> 47%N -> path_join a (c :: b) = a ++ sep ++ c :: b.
Proof.
  assert (Hb : forall (c : N) (b : str), c <> 47%N ->
            path_join a (c :: b)
            = match last a with
              | None => c :: b
              | Some 47%N => a ++ c :: b
              | Some _ => a ++ [47%N] ++ c :: b
              end).
  { intros c b Hc. unfold path_join.
    destruct c as [|p]; [done|].
    do 6 (try (destruct p as [p|p|]; try done)). }
  destruct (last a) as [x|] eqn:E.
  - destruct (decide (x = 47%N)) as [->|Hx].
    + exists []. intros c b Hc. by rewrite Hb.
    + exists [47%N]. intros c b Hc. rewrite Hb by done.
      destruct x as [|p]; [done|].
      do 6 (try (destruct p as [p|p|]; try done)).
  - apply last_None in E as ->. exists []. intros c b Hc. by rewrite Hb.
Qed.

Lemma path_join_longer (a : str) (c : N) (b : str) :
  c <> 47%N -> path_join a (c :: b) <> a.
Proof.
  intros Hc. destruct (path_join_relative a) as (sep & Hsep).
  rewrite Hsep by done. intros Heq. apply (f_equal length) in Heq.
  rewrite !length_app in Heq. simpl in Heq. lia.
Qed.

Lemma path_join_inj (a : str) (c1 c2 : N) (b1 b2 : str) :
  c1 <> 47%N -> c2 <> 47%N ->
  path_join a (c1 :: b1) = path_join a (c2 :: b2) -> c1 :: b1 = c2 :: b2.
Proof.
  intros H1 H2. destruct (path_join_relative a) as (sep & Hsep).
  rewrite !Hsep by done. intros Heq.
  by apply app_inv_head, app_inv_head in Heq.
Qed.

Lemma csv_paths_distinct :
  businesses_csv_path <> reviews_csv_path /\
  businesses_csv_path <> photos_csv_path /\
  reviews_csv_path <> photos_csv_path /\
  businesses_csv_path <> DATA_PATH /\
  reviews_csv_path <> DATA_PATH /\
  photos_csv_path <> DATA_PATH.
Proof.
  unfold businesses_csv_path, reviews_csv_path, photos_csv_path.
  repeat split;
    try (intros H; apply path_join_inj in H; [done|done|done]);
    by apply path_join_longer.
Qed.

Lemma main_before_harvest_spec w :
  traffic (main_before_harvest w) = traffic w /\
  net (main_before_harvest w) = net w /\
  fs (main_before_harvest w)
  = (if present_in w DATA_PATH then fs w else <[DATA_PATH := Dir]> (fs w)).
Proof.
  unfold main_before_harvest. by destruct (present_in w DATA_PATH).
Qed.

Lemma present_in_false w p : present_in w p = false -> fs w !! p = None.
Proof.
  unfold present_in. intros H%bool_decide_eq_false.
  destruct (fs w !! p) eqn:E; [|done]. destruct H. eauto.
Qed.

Lemma main_raised w e w' :
  main w = (Raised e, w') ->
  present_in w businesses_csv_path && present_in w reviews_csv_path
    && present_in w photos_csv_path = false /\
  fs w' = fs (main_before_harvest w) /\
  exists r w0,
    get_yelp_data main_locations (lit "restaurants") (main_before_harvest w)
    = (r, w0) /\
    traffic w' = traffic w0 /\
    match r with
    | Raise e' => e' = e
    | Ok t => prepare t = Raise e
    end.
Proof.
  unfold main.
  destruct (present_in w businesses_csv_path && present_in w reviews_csv_path
            && present_in w photos_csv_path); [done|].
  rewrite main_download_eq.
  destruct (get_yelp_data _ _ _) as [r w0] eqn:Hrun.
  pose proof (harvest_trace _ _ _ _ _ Hrun) as (Hfs & _).
  destruct r as [t|e0].
  - destruct (prepare t) as [frames|e1] eqn:Hprep.
    + destruct (download_photos_spec (itertuples frames.2)
                  (path_join DATA_PATH (lit "photos"))
                  (main_before_photos frames w0)) as (w3 & -> & _).
      done.
    + intros [= -> <-]. split; [done|]. split; [done|].
      exists (Ok t), w0. by rewrite Hprep.
  - intros [= -> <-]. split; [done|]. split; [done|]. by exists (Raise e), w0.
Qed.

Lemma main_returned w w1 :
  main w = (Returned, w1) ->
  exists t w0 frames w3,
    get_yelp_data main_locations (lit "restaurants") (main_before_harvest w)
    = (Ok t, w0) /\
    prepare t = Ok frames /\
    download_photos (itertuples frames.2) (path_join DATA_PATH (lit "photos"))
                    (main_before_photos frames w0) = (Ok tt, w3) /\
    w1 = logged (LogInfo (lit "Photos downloaded")) w3.
Proof.
  unfold main.
  destruct (present_in w businesses_csv_path && present_in w reviews_csv_path
            && present_in w photos_csv_path); [done|].
  rewrite main_download_eq.
  destruct (get_yelp_data _ _ _) as [[t|e0] w0] eqn:Hrun; [|done].
  destruct (prepare t) as [frames|e1] eqn:Hprep; [|done].
  destruct (download_photos _ _ _) as [[[]|e2] w3] eqn:Hdl; [|done].
  intros [= <-]. by exists t, w0, frames, w3.
Qed.

Lemma main_before_photos_spec frames w0 :
  traffic (main_before_photos frames w0) = traffic w0 /\
  fs (main_before_photos frames w0) !! businesses_csv_path
  = Some (File (to_csv frames.1.1)) /\
  fs (main_before_photos frames w0) !! reviews_csv_path
  = Some (File (to_csv frames.1.2)) /\
  fs (main_before_photos frames w0) !! photos_csv_path
  = Some (File (to_csv frames.2)).
Proof.
  destruct csv_paths_distinct as (Hbr & Hbp & Hrp & _).
  unfold main_before_photos, logged, saved. cbn [log write_file snd fs traffic].
  split; [done|]. split; [|split].
  - rewrite !lookup_insert_ne by done. by rewrite lookup_insert_eq.
  - rewrite lookup_insert_ne by done. by rewrite lookup_insert_eq.
  - by rewrite lookup_insert_eq.
Qed.


(** X9. A run of [main] that ends with an exception has saved nothing: no
    entry of the file system that was there is changed and no file is
    added; the three CSV files are still not all there, so that the next
    run does not exit early.  The requests it has sent are the first ones
    of the harvest, twenty at most: POSTs to the API with the queries of
    the five cities in order, and none for a photo. *)
Theorem main_failure_saves_nothing (w w' : world Net) (e : exn) :
  main w = (Raised e, w') ->
  (forall p, is_Some (fs w !! p) -> fs w' !! p = fs w !! p) /\
  files (fs w') = files (fs w) /\
  present_in w' businesses_csv_path && present_in w' reviews_csv_path
    && present_in w' photos_csv_path = false /\
  exists new,
    traffic w' = traffic w ++ new /\
    length new <= 20 /\
    new.*1 = take (length new)
                  (page_request (lit "restaurants") <$> plan main_locations).
Proof.
  intros H. apply main_raised in H as (Hnot & Hfs & r & w0 & Hrun & Ht & _).
  destruct (main_before_harvest_spec w) as (Ht0 & _ & Hfs0).
  apply harvest_trace in Hrun as (_ & _ & new & Hnew & _ & Hlen & _ & Hreq).
  rewrite length_plan in Hlen. simpl in Hlen.
  destruct csv_paths_distinct as (_ & _ & _ & Hb & Hr & Hp).
  rewrite Hfs, Hfs0. split; [|split; [|split]].
  - intros p Hp'. destruct (present_in w DATA_PATH) eqn:E; [done|].
    apply present_in_false in E. apply lookup_insert_ne. intros <-.
    rewrite E in Hp'. by destruct Hp'.
  - destruct (present_in w DATA_PATH) eqn:E; [done|].
    apply files_insert_dir. by apply present_in_false.
  - rewrite <- Hnot. unfold present_in at 1 2 3. rewrite Hfs, Hfs0.
    destruct (present_in w DATA_PATH); [done|].
    unfold present_in. by rewrite !lookup_insert_ne.
  - exists new. rewrite Ht, Hnew, Ht0. done.
Qed.


(** X11. Once [main] has returned, a second call exits at once with
    status 0: it sends no request and writes nothing, so that the photos
    whose download failed in the first run are not asked for again. *)
Theorem main_rerun_exits (w w1 : world Net) :
  main w = (Returned, w1) ->
  exists w2,
    main w1 = (SystemExit 0, w2) /\
    traffic w2 = traffic w1 /\ fs w2 = fs w1 /\ net w2 = net w1 /\
    logging w2 = logging w1 ++ [LogInfo (lit "Data already downloaded")].
Proof.
  intros H. apply main_returned in H as (t & w0 & frames & w3 & _ & _
                                         & Hdl & ->).
  destruct (main_before_photos_spec frames w0) as (_ & Hb & Hr & Hp).
  destruct (download_photos_spec (itertuples frames.2)
              (path_join DATA_PATH (lit "photos"))
              (main_before_photos frames w0))
    as (w3' & Hdl' & (_ & _ & _ & _ & Hkeep & _) & _).
  rewrite Hdl in Hdl'. injection Hdl' as <-.
  unfold main, present_in, logged. cbn [log snd fs].
  rewrite !Hkeep by (rewrite ?Hb, ?Hr, ?Hp; eauto).
  rewrite Hb, Hr, Hp.
  rewrite !bool_decide_eq_true_2 by eauto.
  eexists. split; [reflexivity|]. done.
Qed.

(** ** The harvest, one list of locations after another *)

Lemma plan_app l1 l2 : plan (l1 ++ l2) = plan l1 ++ plan l2.
Proof. unfold plan. apply flat_map_app. Qed.

(** The tables a run starts from are only added to. *)
Lemma for_each_page_step_acc category pl acc w :
  for_each (fun p => page_step category p.1 p.2) pl acc w
  = match for_each (fun p => page_step category p.1 p.2) pl ([], [], []) w with
    | (Ok t, w') => (Ok (tables_app acc t), w')
    | (Raise e, w') => (Raise e, w')
    end.
Proof.
  revert acc w; induction pl as [|[location offset] pl IH]; intros acc w.
  - simpl. unfold ret. by rewrite tables_app_nil_r.
  - cbn [for_each]. unfold bindM. rewrite !page_step_eq. cbn [fst snd].
    destruct (page_of _) as [pg|e]; [|done].
    cbn [bind]. rewrite tables_app_nil_l.
    rewrite (IH (tables_app acc pg)), (IH pg).
    destruct (for_each _ pl _ _) as [[t|e] w']; [|done].
    by rewrite tables_app_assoc.
Qed.

(** X12. Harvesting a list of locations in one call is harvesting a first
    part, then the rest from the state the first call left, and appending
    the tables: the same requests in the same order, the same rows.  An
    exception of the first call ends the run before the second part. *)
Theorem get_yelp_data_app
        (l1 l2 : list str) (category : str) (w : world Net) :
  get_yelp_data (l1 ++ l2) category w
  = match get_yelp_data l1 category w with
    | (Ok t1, w1) =>
        match get_yelp_data l2 category w1 with
        | (Ok t2, w2) => (Ok (tables_app t1 t2), w2)
        | (Raise e, w2) => (Raise e, w2)
        end
    | (Raise e, w1) => (Raise e, w1)
    end.
Proof.
  rewrite !get_yelp_data_plan, plan_app, for_each_app. unfold bindM.
  destruct (for_each _ (plan l1) _ w) as [[t1 |e] w1]; [|done].
  rewrite for_each_page_step_acc. by rewrite get_yelp_data_plan.
Qed.

End Pipeline.

(** ** The properties on the sample data *)

Local Open Scope nat_scope.

Example md5_empty :
  MD5.hexdigest [] = lit "d41d8cd98f00b204e9800998ecf8427e".
Proof. vm_compute. reflexivity. Qed.

Example md5_abc :
  MD5.hexdigest <$> encode_utf8 (lit "abc")
  = Some (lit "900150983cd24fb0d6963f7d28e17f72").
Proof. vm_compute. reflexivity. Qed.

Example md5_two_blocks :
  MD5.hexdigest (replicate 120 98%N) = lit "c8eb298682a7890e3136465d34d5ec25".
Proof. vm_compute. reflexivity. Qed.

(** "café €": two and three bytes for the last two characters. *)
Example md5_utf8 :
  MD5.hexdigest <$> encode_utf8 (lit "caf" ++ [233; 32; 8364]%N)
  = Some (lit "dbc9e678d340fe742ac6184cbd21a9ff").
Proof. vm_compute. reflexivity. Qed.

Example str_of_N_150 : str_of_N 150 = lit "150".
Proof. vm_compute. reflexivity. Qed.

Example str_of_N_0 : str_of_N 0 = lit "0".
Proof. vm_compute. reflexivity. Qed.

Example path_join_photos :
  path_join (lit "data/photos") (lit "a_0.jpg") = lit "data/photos/a_0.jpg".
Proof. vm_compute. reflexivity. Qed.

Example normalize_sample_business :
  normalize_business id Sample.business
  = Ok ([Sample.business_row_expected], [Sample.review_row_expected],
        [Sample.photo_row_expected]).
Proof. vm_compute. reflexivity. Qed.

(** Two categories "a" and "b" that both list the parent "food": the
    parent categories cell is ["food"], in whatever order sets enumerate. *)
Example shared_parent_once (set_iter : pyset -> list json) :
  (forall s, set_iter s ≡ₚ s) ->
  exists row,
    business_record set_iter Sample.business = Ok row /\
    business_parent_categories row = [JStr (lit "food")] /\
    business_categories row ≡ₚ [JStr (lit "a"); JStr (lit "b")].
Proof.
  intros Hperm. eexists. split; [reflexivity|]. simpl. split.
  - apply Permutation_singleton_r. apply Hperm.
  - apply Hperm.
Qed.

(** The price "€€" has two characters, and six bytes. *)
Example price_tier_euro :
  price_tier (JDict [(lit "price", JStr [8364; 8364]%N)]) = Ok 2%Z.
Proof. reflexivity. Qed.

(** A null business list, unlike an absent one, cannot be iterated. *)
Example null_business_list :
  normalize_page id
    (JDict [(lit "data",
             JDict [(lit "search", JDict [(lit "business", JNone)])])])
  = Raise TypeError.
Proof. reflexivity. Qed.

(** An error list answered with status 200 ends the run at the third
    request. *)
Example api_error_aborts :
  exists w',
    get_yelp_data id nat Sample.errors_third None
                  [lit "Paris"; lit "Tokyo"] (lit "restaurants") Sample.start
    = (Raise (ApiError Sample.api_errors), w')
    /\ length (traffic w') = 3.
Proof. eexists. split; [vm_compute; reflexivity|]. reflexivity. Qed.

(** *** Instances of the theorems *)

Lemma get_yelp_data_pagination_witness :
  exists bs rs ps w',
    get_yelp_data id nat Sample.short_pages None
                  [lit "Paris"; lit "Tokyo"] (lit "restaurants") Sample.start
    = (Ok (bs, rs, ps), w') /\
    bs = [Sample.business_row_expected] /\
    length (traffic w') = 8 /\
    exists resps,
      traffic w'
      = traffic Sample.start
        ++ zip (page_request None (lit "restaurants")
                  <$> plan [lit "Paris"; lit "Tokyo"]) resps /\
      length resps <= length (plan [lit "Paris"; lit "Tokyo"]) /\
      length resps = length (plan [lit "Paris"; lit "Tokyo"]) /\
      exists pages,
        Forall2 (fun resp pg => page_of id resp = Ok pg) resps pages /\
        (bs, rs, ps) = tables_concat pages.
Proof.
  do 4 eexists. split; [vm_compute; reflexivity|].
  split; [reflexivity|]. split; [reflexivity|].
  eapply (get_yelp_data_pagination id nat Sample.short_pages None
            [lit "Paris"; lit "Tokyo"] (lit "restaurants") Sample.start _
            (Ok _)).
  vm_compute. reflexivity.
Defined.

Lemma page_fetch_fail_fast_witness :
  exists w',
    get_yelp_data id nat Sample.failing_second None
                  [lit "Paris"] (lit "restaurants") Sample.start
    = (Raise (TransportError 500 (lit "Internal Server Error")), w') /\
    length (traffic w') = 2 /\
    exists new,
      traffic w' = traffic Sample.start ++ new /\
      forall i req resp,
        new !! i = Some (req, resp) ->
        (forall items,
            (status_code resp = 200%Z -> json_body resp = Ok (JDict items)) ->
            check_response resp = fetch_spec resp items) /\
        (status_code resp <> 200%Z ->
         check_response resp
         = Raise (TransportError (status_code resp) (text resp))) /\
        (status_code resp = 200%Z ->
         (forall e, json_body resp = Raise e ->
                    check_response resp = Raise e) /\
         (forall data,
             json_body resp = Ok data ->
             (forall items, data <> JDict items) ->
             check_response resp
             = match py_in (lit "errors") data with
               | Ok false => Ok data
               | _ => Raise TypeError
               end)) /\
        (forall e, check_response resp = Raise e ->
                   Raise (TransportError 500 (lit "Internal Server Error"))
                   = Raise (A := tables) e
                   /\ S i = length new).
Proof.
  eexists. split; [vm_compute; reflexivity|]. split; [reflexivity|].
  eapply (page_fetch_fail_fast id nat Sample.failing_second None
            [lit "Paris"] (lit "restaurants") Sample.start).
  vm_compute. reflexivity.
Defined.

Lemma photo_file_name_is_cache_key_witness :
  exists bs rs ps w',
    get_yelp_data id nat Sample.short_pages None
                  [lit "Paris"] (lit "restaurants") Sample.start
    = (Ok (bs, rs, ps), w') /\
    ps = [Sample.photo_row_expected] /\
    forall p, p ∈ ps ->
              exists alias url,
                photo_business_alias p = JStr alias /\
                photo_url p = JStr url /\
                cache_key alias url = Some (file_name p).
Proof.
  do 4 eexists. split; [vm_compute; reflexivity|]. split; [reflexivity|].
  eapply (photo_file_name_is_cache_key id nat Sample.short_pages None
            [lit "Paris"] (lit "restaurants") Sample.start).
  vm_compute. reflexivity.
Defined.

Lemma harvest_referential_integrity_witness :
  exists bs rs ps w',
    get_yelp_data id nat Sample.short_pages None
                  [lit "Paris"] (lit "restaurants") Sample.start
    = (Ok (bs, rs, ps), w') /\
    rs = [Sample.review_row_expected] /\
    (forall r, r ∈ rs ->
               exists row, row ∈ bs /\
                           business_alias row = review_business_alias r) /\
    (forall p, p ∈ ps ->
               exists row, row ∈ bs /\
                           business_alias row = photo_business_alias p).
Proof.
  do 4 eexists. split; [vm_compute; reflexivity|]. split; [reflexivity|].
  eapply (harvest_referential_integrity id nat Sample.short_pages None
            [lit "Paris"] (lit "restaurants") Sample.start).
  vm_compute. reflexivity.
Defined.

Lemma categories_deduplicated_witness :
  (forall s : pyset, id s ≡ₚ s) /\
  business_record id Sample.business = Ok Sample.business_row_expected /\
  NoDup (business_categories Sample.business_row_expected) /\
  NoDup (business_parent_categories Sample.business_row_expected).
Proof.
  split; [reflexivity|]. split; [reflexivity|].
  destruct (categories_deduplicated id (fun s => reflexivity (id s))
              Sample.business Sample.business_row_expected eq_refl)
    as (H1 & H2 & _).
  split; [exact H1 | exact H2].
Defined.

Lemma price_tier_length_witness :
  (price_tier Sample.business = Ok 2%Z /\
   business_price Sample.business_row_expected = 2%Z) /\
  (price_tier Sample.bare_business = Ok 0%Z /\
   business_price Sample.bare_row_expected = 0%Z).
Proof.
  split.
  - destruct (price_tier_length id
                [(lit "alias", JStr (lit "le-bistro"));
                 (lit "review_count", JInt 12);
                 (lit "rating", JFloat (FFinite false 9 (-1)));
                 (lit "price", JStr (lit "$$"));
                 (lit "location",
                  JDict [(lit "city", JStr (lit "Paris"));
                         (lit "state", JStr (lit "75"));
                         (lit "postal_code", JStr (lit "75011"));
                         (lit "country", JStr (lit "FR"))]);
                 (lit "coordinates",
                  JDict [(lit "latitude", JFloat (FFinite false 391 (-3)));
                         (lit "longitude", JFloat (FFinite false 19 (-3)))]);
                 (lit "categories",
                  JList [Sample.category "a" "food";
                         Sample.category "b" "food"]);
                 (lit "photos", JList [JStr Sample.photo_link]);
                 (lit "reviews",
                  JList [JDict [(lit "text", JStr (lit "Great"));
                                (lit "rating", JInt 5)]])]
                (Some (lit "$$")) eq_refl) as [H1 H2].
    split; [exact H1|]. exact (H2 Sample.business_row_expected eq_refl).
  - destruct (price_tier_length id
                [(lit "alias", JStr (lit "chez-nous"));
                 (lit "photos", JNone); (lit "reviews", JNone)]
                None eq_refl) as [H1 H2].
    split; [exact H1|]. exact (H2 Sample.bare_row_expected eq_refl).
Defined.

Lemma absent_business_list_is_empty_witness :
  business_list_absent Sample.page_without_list /\
  normalize_page id Sample.page_without_list = Ok ([], [], []).
Proof.
  assert (H : business_list_absent Sample.page_without_list).
  { eexists. split; [reflexivity|]. right. eexists. split; [reflexivity|].
    right. eexists. split; reflexivity. }
  split; [exact H|].
  exact (proj2 (absent_business_list_is_empty id _ H)).
Defined.

Lemma null_photos_reviews_guarded_witness :
  normalize_business id Sample.bare_business
  = Ok ([Sample.bare_row_expected], [], []) /\
  exists e, normalize_business id Sample.uncategorised_business = Raise e.
Proof.
  split.
  - destruct (null_photos_reviews_guarded id
                [(lit "alias", JStr (lit "chez-nous"));
                 (lit "photos", JNone); (lit "reviews", JNone)])
      as (_ & _ & H & _).
    exact (proj1 (H eq_refl eq_refl Sample.bare_row_expected eq_refl)).
  - destruct (null_photos_reviews_guarded id
                [(lit "alias", JStr (lit "chez-nous"));
                 (lit "categories", JNone)])
      as (_ & _ & _ & H).
    destruct (H eq_refl) as (e & _ & He & _). exists e. exact He.
Defined.

Lemma download_photos_best_effort_witness :
  exists w',
    download_photos nat Sample.picky_get Sample.three_photos (lit "photos")
                    Sample.start
    = (Ok tt, w') /\
    fs w' !! lit "photos/p_1.jpg" = Some (File Sample.jpeg) /\
    fs w' !! lit "photos/p_2.jpg" = None /\
    fs w' !! lit "photos/p_3.jpg" = Some (File Sample.jpeg) /\
    logging w'
    = [LogInfo (lit "Creating photos");
       LogWarning (lit "https://example.org/2.jpg") 503
                  (lit "Service Unavailable")] /\
    download_post nat (lit "photos") Sample.three_photos Sample.start w'.
Proof.
  destruct (download_photos_best_effort nat Sample.picky_get
              Sample.three_photos (lit "photos") Sample.start)
    as (_ & w' & Hrun & Hpost).
  exists w'. split; [exact Hrun|].
  assert (w' = (download_photos nat Sample.picky_get Sample.three_photos
                                (lit "photos") Sample.start).2)
    as Hw by (by rewrite Hrun).
  split; [rewrite Hw; vm_compute; reflexivity|].
  split; [rewrite Hw; vm_compute; reflexivity|].
  split; [rewrite Hw; vm_compute; reflexivity|].
  split; [rewrite Hw; vm_compute; reflexivity|].
  exact Hpost.
Defined.

Lemma download_photos_idempotent_witness :
  (exists first,
      download_photos nat Sample.steady_get [Sample.photo] (lit "photos")
                      Sample.start
      = (Ok tt, first) /\
      Forall (fun x : request * response => status_code x.2 = 200%Z)
             (drop (length (traffic Sample.start)) (traffic first)) /\
      length (traffic first) = 1 /\
      download_photos nat Sample.steady_get [Sample.photo] (lit "photos")
                      first
      = (Ok tt, first)) /\
  (exists first second new,
      download_photos nat Sample.flaky_get [Sample.photo] (lit "photos")
                      Sample.start
      = (Ok tt, first) /\
      fs first !! path_join (lit "photos") (tuple_file_name Sample.photo)
      = None /\
      download_photos nat Sample.flaky_get [Sample.photo] (lit "photos")
                      first
      = (Ok tt, second) /\
      traffic second = traffic first ++ new /\
      new <> []).
Proof.
  split.
  - set (first := (download_photos nat Sample.steady_get [Sample.photo]
                                   (lit "photos") Sample.start).2).
    exists first.
    assert (H1 : download_photos nat Sample.steady_get [Sample.photo]
                                 (lit "photos") Sample.start
                 = (Ok tt, first)).
    { reflexivity. }
    assert (H2 : Forall (fun x : request * response =>
                           status_code x.2 = 200%Z)
                        (drop (length (traffic Sample.start))
                              (traffic first))).
    { repeat constructor. }
    split; [exact H1|]. split; [exact H2|]. split; [reflexivity|].
    exact (proj2 (proj1 (proj2 (download_photos_idempotent
                                  nat Sample.steady_get [Sample.photo]
                                  (lit "photos") Sample.start first H1))
                        H2)).
  - set (first := (download_photos nat Sample.flaky_get [Sample.photo]
                                   (lit "photos") Sample.start).2).
    assert (H1 : download_photos nat Sample.flaky_get [Sample.photo]
                                 (lit "photos") Sample.start
                 = (Ok tt, first)).
    { reflexivity. }
    assert (H3 : fs first
                 !! path_join (lit "photos") (tuple_file_name Sample.photo)
                 = None).
    { vm_compute. reflexivity. }
    assert (Hin : Sample.photo ∈ [Sample.photo]) by (by left).
    destruct (proj2 (proj2 (download_photos_idempotent
                              nat Sample.flaky_get [Sample.photo]
                              (lit "photos") Sample.start first H1))
                    Sample.photo Hin H3)
      as (second & new & ph & resp & Hrun2 & Ht & _ & _ & Hnew).
    exists first, second, new.
    split; [exact H1|]. split; [exact H3|]. split; [exact Hrun2|].
    split; [exact Ht|]. intros ->. by apply elem_of_nil in Hnew.
Defined.

(** A photo whose download failed in the first run is downloaded by the
    second: the second run sends a request and adds a file. *)
Lemma download_photos_second_run_downloads :
  traffic (download_photos nat Sample.flaky_get [Sample.photo] (lit "photos")
             (download_photos nat Sample.flaky_get [Sample.photo]
                              (lit "photos") Sample.start).2).2
  <> traffic (download_photos nat Sample.flaky_get [Sample.photo]
                              (lit "photos") Sample.start).2
  /\
  fs (download_photos nat Sample.flaky_get [Sample.photo] (lit "photos")
        (download_photos nat Sample.flaky_get [Sample.photo]
                         (lit "photos") Sample.start).2).2
  <> fs (download_photos nat Sample.flaky_get [Sample.photo]
                         (lit "photos") Sample.start).2.
Proof.
  split.
  - intros H. apply (f_equal length) in H. vm_compute in H. discriminate.
  - intros H.
    apply (f_equal (fun m : gmap str entry =>
                      m !! lit "photos/le-bistro_d5988730afe849f18bde6bc1f524b988.jpg"))
      in H.
    vm_compute in H. discriminate.
Qed.

(** A fetch fails although the status is 200 and the payload carries no
    error list: the body is not JSON, or it is the JSON value [null].  The
    run ends with that exception. *)
Lemma page_fetch_fails_outside_spec :
  (check_response (Sample.image Sample.jpeg) = Raise JSONDecodeError /\
   ~ fails_by_spec (Sample.image Sample.jpeg)) /\
  (check_response (Sample.ok JNone) = Raise TypeError /\
   ~ fails_by_spec (Sample.ok JNone)) /\
  (get_yelp_data id nat Sample.garbled None [lit "Paris"] (lit "restaurants")
                 Sample.start).1
  = Raise JSONDecodeError.
Proof.
  split; [|split].
  - split; [reflexivity|].
    intros [H|(items & errors & H & _)]; [by apply H|discriminate].
  - split; [reflexivity|].
    intros [H|(items & errors & H & _)]; [by apply H|discriminate].
  - vm_compute. reflexivity.
Qed.

(** *** Further properties on the sample data *)

Lemma photos_and_reviews_are_the_entries_witness :
  let w' := (get_yelp_data id nat Sample.short_pages None [lit "Paris"]
                           (lit "restaurants") Sample.start).2 in
  get_yelp_data id nat Sample.short_pages None [lit "Paris"]
                (lit "restaurants") Sample.start
  = (Ok ([Sample.business_row_expected], [Sample.review_row_expected],
         [Sample.photo_row_expected]), w') /\
  exists lists photos reviews,
    mapM page_entries (responses_since nat Sample.start w') = Ok lists /\
    mapM photos_of (concat lists) = Ok photos /\
    photo_url <$> [Sample.photo_row_expected] = concat photos /\
    Forall (fun p => exists alias url,
                photo_business_alias p = JStr alias /\ photo_url p = JStr url)
           [Sample.photo_row_expected] /\
    mapM reviews_of (concat lists) = Ok reviews /\
    length [Sample.review_row_expected] = length (concat reviews).
Proof.
  intros w'. split; [vm_compute; reflexivity|].
  apply (photos_and_reviews_are_the_entries id nat Sample.short_pages None
           [lit "Paris"] (lit "restaurants") Sample.start w'
           [Sample.business_row_expected] [Sample.review_row_expected]
           [Sample.photo_row_expected]).
  vm_compute. reflexivity.
Defined.

Lemma nested_fields_default_witness :
  business_record id (JDict Sample.adrift_items)
  = Ok Sample.adrift_row_expected /\
  nested_field None "city" JNone /\
  nested_field (Some (JDict [(lit "latitude", JInt 48)])) "latitude"
               (JInt 48) /\
  nested_field (Some (JDict [(lit "latitude", JInt 48)])) "longitude" JNone.
Proof.
  split; [vm_compute; reflexivity|].
  destruct (nested_fields_default id Sample.adrift_items
              Sample.adrift_row_expected eq_refl)
    as (Hcity & _ & _ & _ & Hlat & Hlon).
  split; [exact Hcity|]. split; [exact Hlat | exact Hlon].
Defined.

Lemma photos_need_alias_witness :
  (forall a, assoc (lit "alias") Sample.anonymous_items <> Some (JStr a)) /\
  business_record id (JDict Sample.anonymous_items)
  = Ok Sample.anonymous_row_expected /\
  photos_of (JDict Sample.anonymous_items) = Ok [JStr Sample.photo_link] /\
  photo_record (JDict Sample.anonymous_items) (JStr Sample.photo_link)
  = Raise TypeError /\
  business_step id (JDict Sample.anonymous_items) ([], [], [])
  = Raise TypeError.
Proof.
  assert (H : forall a,
             assoc (lit "alias") Sample.anonymous_items <> Some (JStr a))
    by (intros a; discriminate).
  split; [exact H|]. split; [reflexivity|]. split; [reflexivity|].
  exact (photos_need_alias id Sample.anonymous_items
           Sample.anonymous_row_expected (JStr Sample.photo_link) []
           ([], [], []) H eq_refl eq_refl).
Defined.

Lemma businesses_are_the_entries_witness :
  let w' := (get_yelp_data id nat Sample.stuck_pages None [lit "Paris"]
                           (lit "restaurants") Sample.start).2 in
  let bs := replicate 4 Sample.bare_row_expected in
  get_yelp_data id nat Sample.stuck_pages None [lit "Paris"]
                (lit "restaurants") Sample.start
  = (Ok (bs, [], []), w') /\
  exists lists,
    mapM page_entries (responses_since nat Sample.start w') = Ok lists /\
    mapM (business_record id) (concat lists) = Ok bs /\
    length bs = length (concat lists).
Proof.
  intros w' bs. split; [vm_compute; reflexivity|].
  apply (businesses_are_the_entries id nat Sample.stuck_pages None
           [lit "Paris"] (lit "restaurants") Sample.start w' bs [] []).
  vm_compute. reflexivity.
Defined.

Lemma file_name_shape_witness :
  photo_record Sample.business (JStr Sample.photo_link)
  = Ok Sample.photo_row_expected /\
  exists alias1 h1 alias2 h2,
    photo_business_alias Sample.photo_row_expected = JStr alias1 /\
    photo_business_alias Sample.photo_row_expected = JStr alias2 /\
    file_name Sample.photo_row_expected
    = alias1 ++ lit "_" ++ h1 ++ lit ".jpg" /\
    file_name Sample.photo_row_expected
    = alias2 ++ lit "_" ++ h2 ++ lit ".jpg" /\
    length h1 = 32 /\ Forall is_hex h1 /\
    length (file_name Sample.photo_row_expected) = length alias1 + 37 /\
    (file_name Sample.photo_row_expected = file_name Sample.photo_row_expected
     -> alias1 = alias2 /\ h1 = h2).
Proof.
  split; [vm_compute; reflexivity|].
  apply (file_name_shape Sample.business (JStr Sample.photo_link)
           Sample.business (JStr Sample.photo_link)
           Sample.photo_row_expected Sample.photo_row_expected);
    vm_compute; reflexivity.
Defined.

Lemma missing_alias_is_None_witness :
  (forall s : pyset, id s ≡ₚ s) /\
  business_record id Sample.half_named_business
  = Ok Sample.half_named_row_expected /\
  (JNone ∈ business_categories Sample.half_named_row_expected <->
   exists cat,
     cat ∈ [JDict []; Sample.category "a" "food"] /\
     dict_get cat (lit "alias") JNone = Ok JNone).
Proof.
  split; [reflexivity|]. split; [reflexivity|].
  destruct (missing_alias_is_None id (fun s => reflexivity (id s))
              Sample.half_named_business Sample.half_named_row_expected
              eq_refl)
    as (cats & Hcats & Hnone & _).
  injection Hcats as <-. exact Hnone.
Defined.

Lemma non_object_payload_raises_witness :
  status_code (Sample.ok (JList [])) = 200%Z /\
  json_body (Sample.ok (JList [])) = Ok (JList []) /\
  (forall items, JList [] <> JDict items) /\
  (page_entries (Sample.ok (JList [])) = Raise TypeError
   \/ page_entries (Sample.ok (JList [])) = Raise AttributeError) /\
  (page_of id (Sample.ok (JList [])) = Raise TypeError
   \/ page_of id (Sample.ok (JList [])) = Raise AttributeError).
Proof.
  assert (H : forall items, JList [] <> JDict items)
    by (intros items; discriminate).
  split; [reflexivity|]. split; [reflexivity|]. split; [exact H|].
  exact (non_object_payload_raises id (Sample.ok (JList [])) (JList [])
           eq_refl eq_refl H).
Defined.

Lemma download_photos_counts_witness :
  let w' := (download_photos nat Sample.picky_get Sample.three_photos
                             (lit "photos") Sample.start).2 in
  download_photos nat Sample.picky_get Sample.three_photos (lit "photos")
                  Sample.start
  = (Ok tt, w') /\
  size (files (fs w')) = 2 /\
  exists asked new,
    traffic w' = traffic Sample.start ++ new /\
    asked `sublist_of` Sample.three_photos /\
    new.*1 = (fun photo => GET (tuple_photo_url photo)) <$> asked /\
    (forall p, is_Some (fs Sample.start !! p) ->
               fs w' !! p = fs Sample.start !! p) /\
    size (files (fs w'))
    = size (files (fs Sample.start)) + length (filter answered_200 new).
Proof.
  intros w'. split; [vm_compute; reflexivity|].
  split; [vm_compute; reflexivity|].
  apply (download_photos_counts nat Sample.picky_get Sample.three_photos
           (lit "photos") Sample.start w').
  vm_compute. reflexivity.
Defined.

Lemma main_failure_saves_nothing_witness :
  let w' := (main id nat Sample.failing_second Sample.steady_get None
                  (lit "data") Sample.frame Sample.prepare Sample.to_csv
                  Sample.itertuples Sample.start).2 in
  let e := TransportError 500 (lit "Internal Server Error") in
  main id nat Sample.failing_second Sample.steady_get None (lit "data")
       Sample.frame Sample.prepare Sample.to_csv Sample.itertuples
       Sample.start
  = (Raised e, w') /\
  length (traffic w') = 2 /\
  (forall p, is_Some (fs Sample.start !! p) ->
             fs w' !! p = fs Sample.start !! p) /\
  files (fs w') = files (fs Sample.start) /\
  present_in nat w' (businesses_csv_path (lit "data"))
    && present_in nat w' (reviews_csv_path (lit "data"))
    && present_in nat w' (photos_csv_path (lit "data")) = false /\
  exists new,
    traffic w' = traffic Sample.start ++ new /\
    length new <= 20 /\
    new.*1 = take (length new)
                  (page_request None (lit "restaurants")
                     <$> plan main_locations).
Proof.
  intros w' e. split; [vm_compute; reflexivity|].
  split; [vm_compute; reflexivity|].
  apply (main_failure_saves_nothing id nat Sample.failing_second
           Sample.steady_get None (lit "data") Sample.frame Sample.prepare
           Sample.to_csv Sample.itertuples Sample.start w' e).
  vm_compute. reflexivity.
Defined.


Lemma main_rerun_exits_witness :
  let w1 := (main id nat Sample.short_pages Sample.down_get None
                  (lit "data") Sample.frame Sample.prepare Sample.to_csv
                  Sample.itertuples Sample.start).2 in
  main id nat Sample.short_pages Sample.down_get None (lit "data")
       Sample.frame Sample.prepare Sample.to_csv Sample.itertuples
       Sample.start
  = (Returned, w1) /\
  fs w1 !! lit "data/photos/le-bistro_d5988730afe849f18bde6bc1f524b988.jpg"
  = None /\
  exists w2,
    main id nat Sample.short_pages Sample.down_get None (lit "data")
         Sample.frame Sample.prepare Sample.to_csv Sample.itertuples w1
    = (SystemExit 0, w2) /\
    traffic w2 = traffic w1 /\ fs w2 = fs w1 /\ net w2 = net w1 /\
    logging w2 = logging w1 ++ [LogInfo (lit "Data already downloaded")].
Proof.
  intros w1. split; [vm_compute; reflexivity|].
  split; [vm_compute; reflexivity|].
  apply (main_rerun_exits id nat Sample.short_pages Sample.down_get None
           (lit "data") Sample.frame Sample.prepare Sample.to_csv
           Sample.itertuples Sample.start w1).
  vm_compute. reflexivity.
Defined.
